(** * The background service of plugin.video.viervijfzes

    A shallow embedding of [resources/lib/service.py]: the maintenance loop
    ([BackgroundService.run]), the cache sweep
    ([BackgroundService._remove_expired_metadata]), the credential check
    ([BackgroundService._has_credentials_changed]), the refresh cycle
    ([BackgroundService._update_metadata]) and the playback callbacks of
    [KodiPlayer].

    Python statements become computations in a small state-and-exception
    monad [M] over a [World] (settings store, cache directory, clock, the
    item Kodi is playing).  Calls that leave the process (the HTTP probe, the
    dialog, the metadata fetch, ...) are recorded in a trace of [Event]s.
    What the service cannot know is a parameter: the moment of the abort
    signal, the answers of the network, the digest, the metadata fetch.

    Time stamps ([time()], [st_mtime]) are Python floats; they are modelled
    as rationals, with exact addition and comparison.  The clock moves only
    where the code waits: in [waitForAbort] and in the metadata fetch. *)

From Stdlib Require Import QArith Lqa DecimalString DecimalPos DecimalZ Ascii.
From stdpp Require Import gmap strings list fin_maps.

Local Open Scope Z_scope.

(** ** Python values used by the service *)

(** [a < b] on time stamps. *)
Definition Qltb (a b : Q) : bool :=
  (Qnum a * QDen b <? Qnum b * QDen a)%Z.

(** [int(x)] of a float: truncation towards zero. *)
Definition int_of_float (x : Q) : Z := Z.quot (Qnum x) (QDen x).

(** [str(n)] of an integer. *)
Definition str (n : Z) : string := NilZero.string_of_int (Z.to_int n).

(** [int(s)] of a string, [None] standing for [ValueError].  Only plain
    decimal literals with an optional leading minus sign are accepted (what
    [str] writes); Python also accepts surrounding blanks, a plus sign and
    underscores. *)
Definition int_of_str (s : string) : option Z :=
  Z.of_int <$> NilZero.int_of_string s.

(** Truth value of a string: non-empty. *)
Definition truthy (s : string) : bool :=
  match s with EmptyString => false | String _ _ => true end.

(** ** The world the service runs in *)

(** What can go wrong with a listed cache entry: nothing; it was removed by
    someone else after [os.listdir] ([os.stat] and [os.unlink] both raise);
    or it cannot be deleted ([os.unlink] raises). *)
Inductive FileCondition := Normal | Vanished | Undeletable.

Record CacheFile := {
  st_mtime : Q;
  condition : FileCondition
}.

(** [cache_dir = None]: the cache path does not exist. *)
Record World := {
  settings : gmap string string;
  cache_dir : option (gmap string CacheFile);
  clock : Q;
  filename_and_path : string;  (* getInfoLabel('Player.FilenameAndPath') *)
  playing_file : string        (* Player.getPlayingFile() *)
}.

Definition with_settings (s : gmap string string) (w : World) : World :=
  {| settings := s; cache_dir := cache_dir w; clock := clock w;
     filename_and_path := filename_and_path w; playing_file := playing_file w |}.

Definition with_cache_dir (d : option (gmap string CacheFile)) (w : World) : World :=
  {| settings := settings w; cache_dir := d; clock := clock w;
     filename_and_path := filename_and_path w; playing_file := playing_file w |}.

Definition with_clock (t : Q) (w : World) : World :=
  {| settings := settings w; cache_dir := cache_dir w; clock := t;
     filename_and_path := filename_and_path w; playing_file := playing_file w |}.

(** Modelled from the spec: the translation table ([strings.po]) is not part
    of the sources.  The spec names the two messages of the playback
    callback: 30720 is the "access forbidden" message, 30719 the generic
    "stream unavailable" message. *)
Inductive Message := AccessForbidden | StreamUnavailable | OtherMessage (id : Z).

Inductive Event :=
| EvRefresh (t : Q)                 (* [_update_metadata] entered at time t *)
| EvFetchMetadata                   (* Metadata().fetch_metadata(...) *)
| EvHttpGet (url : option string)   (* requests.get(url) *)
| EvOkDialog (m : Message)          (* kodiutils.ok_dialog(message=...) *)
| EvClearTokens                     (* AuthApi.clear_tokens() *)
| EvContainerRefresh.               (* kodiutils.container_refresh() *)

Inductive Exn := OSError | ValueError | RequestException | FetchError.

Inductive Outcome (A : Type) :=
| Returned (a : A)
| Raised (e : Exn).
Arguments Returned {A} a.
Arguments Raised {A} e.

(** ** The monad: state, exceptions and a trace *)

Definition M (A : Type) : Type := World → Outcome A * World * list Event.

Definition ret {A} (a : A) : M A := λ w, (Returned a, w, []).

Definition bind {A B} (m : M A) (k : A → M B) : M B := λ w,
  match m w with
  | (Returned a, w1, t1) =>
      match k a w1 with (o, w2, t2) => (o, w2, t1 ++ t2) end
  | (Raised e, w1, t1) => (Raised e, w1, t1)
  end.

Definition raise {A} (e : Exn) : M A := λ w, (Raised e, w, []).

Definition emit (ev : Event) : M unit := λ w, (Returned tt, w, [ev]).

Definition gets {A} (f : World → A) : M A := λ w, (Returned (f w), w, []).

Definition modify (f : World → World) : M unit := λ w, (Returned tt, f w, []).

Notation "x <- m ;; k" := (bind m (λ x, k))
  (at level 100, m at next level, right associativity, only parsing).
Notation "m ;;; k" := (bind m (λ _, k))
  (at level 100, right associativity, only parsing).

(** [for x in xs: body(x)] *)
Fixpoint for_each {A} (xs : list A) (body : A → M unit) : M unit :=
  match xs with
  | [] => ret tt
  | x :: xs' => body x ;;; for_each xs' body
  end.

Definition outcome_of {A} (r : Outcome A * World * list Event) : Outcome A := r.1.1.
Definition world_of {A} (r : Outcome A * World * list Event) : World := r.1.2.
Definition trace_of {A} (r : Outcome A * World * list Event) : list Event := r.2.

(** ** Standard library and host calls *)

(** [time()] *)
Definition time : M Q := gets clock.

(** Modelled from the spec: [kodiutils] is not part of the sources.  The
    settings store of the spec's section 6 is a key-value store with
    [get(key, default) -> value], [get_bool(key) -> bool] and
    [set(key, value)]; values are strings, and a key without a value reads
    as the empty string (an unset [credentials_hash] is the empty
    fingerprint). *)
Definition stored (key : string) (w : World) : string :=
  default EmptyString (settings w !! key).

(** Modelled from the spec: [kodiutils.get_setting(key)], no default. *)
Definition get_setting (key : string) : M string := gets (stored key).

(** Modelled from the spec: [kodiutils.get_setting(key, default)] with an
    integer default: the default when the key has no value. *)
Definition get_setting_or (key : string) (dflt : Z) : M (Z + string) :=
  gets (λ w, if truthy (stored key w) then inr (stored key w) else inl dflt).

(** Modelled from the spec: [kodiutils.get_setting_bool(key)]; a switch that
    is on reads as ["true"]. *)
Definition get_setting_bool (key : string) : M bool :=
  gets (λ w, bool_decide (stored key w = "true")).

(** Modelled from the spec: [kodiutils.set_setting(key, value)]. *)
Definition set_setting (key value : string) : M unit :=
  modify (λ w, with_settings (<[key := value]> (settings w)) w).

(** [int(v)] where [v] is what [get_setting(key, 0)] returned. *)
Definition int_ (v : Z + string) : M Z :=
  match v with
  | inl n => ret n
  | inr s => match int_of_str s with
             | Some n => ret n
             | None => raise ValueError
             end
  end.

(** [os.path.exists(kodiutils.get_cache_path())] *)
Definition os_path_exists : M bool :=
  gets (λ w, match cache_dir w with Some _ => true | None => false end).

(** [os.listdir(path)], in the order the map enumerates its keys. *)
Definition os_listdir : M (list string) := λ w,
  match cache_dir w with
  | Some d => (Returned (map_to_list d).*1, w, [])
  | None => (Raised OSError, w, [])
  end.

(** [os.stat(fullpath).st_mtime] *)
Definition os_stat_mtime (name : string) : M Q := λ w,
  match cache_dir w with
  | Some d =>
      match d !! name with
      | Some f =>
          match condition f with
          | Vanished => (Raised OSError, w, [])
          | _ => (Returned (st_mtime f), w, [])
          end
      | None => (Raised OSError, w, [])
      end
  | None => (Raised OSError, w, [])
  end.

(** [os.unlink(fullpath)] *)
Definition os_unlink (name : string) : M unit := λ w,
  match cache_dir w with
  | Some d =>
      match d !! name with
      | Some f =>
          match condition f with
          | Normal => (Returned tt, with_cache_dir (Some (delete name d)) w, [])
          | _ => (Raised OSError, w, [])
          end
      | None => (Raised OSError, w, [])
      end
  | None => (Raised OSError, w, [])
  end.

(** ** BackgroundService._remove_expired_metadata *)

(** [st_mtime + keep_expired > now] *)
Definition fresh_test (keep_expired : Z) (mtime now : Q) : bool :=
  Qltb now (mtime + inject_Z keep_expired).

(** The test of the [if] in the loop,
    [keep_expired and os.stat(fullpath).st_mtime + keep_expired > now]:
    [None] and [0] are falsy, and then [os.stat] is not called. *)
Definition still_fresh (keep_expired : option Z) (now : Q) (filename : string) : M bool :=
  match keep_expired with
  | None => ret false
  | Some r =>
      if (r =? 0)%Z then ret false
      else mtime <- os_stat_mtime filename ;;
           ret (fresh_test r mtime now)
  end.

(** The body of the [for] loop: [continue] on a fresh entry, [os.unlink]
    otherwise. *)
Definition sweep_entry (keep_expired : option Z) (now : Q) (filename : string) : M unit :=
  skip <- still_fresh keep_expired now filename ;;
  if skip then ret tt else os_unlink filename.

Definition _remove_expired_metadata (keep_expired : option Z) : M unit :=
  present <- os_path_exists ;;
  if negb present then ret tt
  else
    now <- time ;;
    names <- os_listdir ;;
    for_each names (sweep_entry keep_expired now).

(** ** Objects *)

(** The fields [BackgroundService.__init__] sets.  ([_auth] and
    [_kodiplayer] hold collaborators; [cache_expiry] is set but the refresh
    cycle passes its own literal to the sweep.) *)
Record BackgroundService := {
  update_interval : Z;
  cache_expiry : Z
}.

Definition BackgroundService__init__ : BackgroundService :=
  {| update_interval := 24 * 3600; cache_expiry := 30 * 24 * 3600 |}.

Record KodiPlayer := {
  listen : bool;
  path : option string;
  av_started : bool;
  stream_path : option string
}.

Definition KodiPlayer__init__ : KodiPlayer :=
  {| listen := false; path := None; av_started := false; stream_path := None |}.

(** What [requests.get] does with a URL: a response with a status code, or
    an exception (connection refused, time-out, ...). *)
Inductive HttpResult := Response (status_code : Z) | ConnectionFailed.

Inductive LoopCtl := Continue | Break.

Inductive RunResult :=
| Finished (o : Outcome unit) (w : World) (t : list Event)
| Running (w : World) (t : list Event).

Definition run_trace (r : RunResult) : list Event :=
  match r with Finished _ _ t => t | Running _ t => t end.

(** The player callbacks Kodi can deliver. *)
Inductive PlayerEvent :=
| PlayBackStarted | AVStarted | AVChange | PlayBackSeek | PlayBackPaused
| PlayBackResumed | PlayBackError | PlayBackStopped | PlayBackEnded.

Definition localize (message_id : Z) : Message :=
  if message_id =? 30720 then AccessForbidden
  else if message_id =? 30719 then StreamUnavailable
  else OtherMessage message_id.

Definition ok_dialog (m : Message) : M unit := emit (EvOkDialog m).

Definition getInfoLabel_FilenameAndPath : M string := gets filename_and_path.

(** [Player.getPlayingFile()], called while Kodi is playing. *)
Definition getPlayingFile : M string := gets playing_file.

Section Service.

(** The moment Kodi raises the abort signal, if it ever does. *)
Variable abort_at : option Q.
(** The network, as [requests.get] sees it. *)
Variable http : string → HttpResult.
(** [hashlib.md5(s.encode('utf-8')).hexdigest()] *)
Variable md5_hexdigest : string → string.
(** [Metadata().fetch_metadata(callback)]: it may poll the callback, takes
    time, writes the cache, and returns its success or raises. *)
Variable fetch_metadata :
  (Z → Z → World → bool) → World → Outcome bool * World.

(** *** xbmc.Monitor *)

Definition abort_raised (w : World) : bool :=
  match abort_at with
  | Some ta => Qle_bool ta (clock w)
  | None => false
  end.

(** [Monitor.abortRequested()] *)
Definition abortRequested : M bool := gets abort_raised.

(** [Monitor.waitForAbort(timeout)]: blocks until the abort signal or the
    end of the timeout, whichever comes first, and tells which. *)
Definition waitForAbort (timeout : Q) : M bool := λ w,
  match abort_at with
  | Some ta =>
      if Qle_bool ta (clock w) then (Returned true, w, [])
      else if Qle_bool ta (clock w + timeout)
           then (Returned true, with_clock ta w, [])
           else (Returned false, with_clock (clock w + timeout) w, [])
  | None => (Returned false, with_clock (clock w + timeout) w, [])
  end.

(** *** BackgroundService._has_credentials_changed *)

(** The fingerprint of the stored credentials, the value [new_hash] has
    when it is compared: the empty string unless a username or a password
    is set. *)
Definition new_hash : M string :=
  username <- get_setting "username" ;;
  filled <- (if truthy username then ret true
             else password <- get_setting "password" ;; ret (truthy password)) ;;
  if filled
  then username <- get_setting "username" ;;
       password <- get_setting "password" ;;
       ret (md5_hexdigest (username +:+ password))
  else ret EmptyString.

Definition _has_credentials_changed : M bool :=
  old_hash <- get_setting "credentials_hash" ;;
  new_hash <- new_hash ;;
  if bool_decide (new_hash ≠ old_hash)
  then set_setting "credentials_hash" new_hash ;;; ret true
  else ret false.

(** *** BackgroundService.onSettingsChanged *)

Definition onSettingsChanged : M unit :=
  changed <- _has_credentials_changed ;;
  if changed
  then emit EvClearTokens ;;; emit EvContainerRefresh
  else ret tt.

(** *** BackgroundService._update_metadata *)

(** The nested [update_status(_i, _total)]. *)
Definition update_status (_i _total : Z) (w : World) : bool :=
  abort_raised w || negb (bool_decide (stored "metadata_update" w = "true")).

Definition Metadata_fetch_metadata (callback : Z → Z → World → bool) : M bool := λ w,
  match fetch_metadata callback w with
  | (o, w') => (o, w', [EvFetchMetadata])
  end.

(** The first two lines only mark the call in the trace; the source has no
    statement there. *)
Definition _update_metadata (self : BackgroundService) : M unit :=
  entered <- time ;;
  emit (EvRefresh entered) ;;;
  _remove_expired_metadata (Some (30 * 24 * 60 * 60)) ;;;
  success <- Metadata_fetch_metadata update_status ;;
  if success
  then now <- time ;;
       set_setting "metadata_last_updated" (str (int_of_float now))
  else ret tt.

(** *** BackgroundService.run *)

(** The test of the [if] in the loop; [and] does not read the time stamp
    when updates are switched off. *)
Definition update_due (self : BackgroundService) : M bool :=
  enabled <- get_setting_bool "metadata_update" ;;
  if enabled
  then v <- get_setting_or "metadata_last_updated" 0 ;;
       last <- int_ v ;;
       now <- time ;;
       ret (Qltb (inject_Z (last + update_interval self)) now)
  else ret false.

(** One pass through the body of the [while]. *)
Definition loop_body (self : BackgroundService) : M LoopCtl :=
  due <- update_due self ;;
  (if due then _update_metadata self else ret tt) ;;;
  aborted <- waitForAbort 10 ;;
  ret (if aborted then Break else Continue).

(** [run], cut off after [fuel] passes (the [while] test is
    [abort_raised], what [abortRequested] returns): [Finished] when the loop has been
    left (by the [while] test, by [break] or by an exception), [Running]
    when it is still going after that many passes; either way with the world
    and the trace so far. *)
Fixpoint run (fuel : nat) (self : BackgroundService) (w : World) : RunResult :=
  match fuel with
  | O => Running w []
  | S fuel' =>
      if abort_raised w then Finished (Returned tt) w []
      else
        match loop_body self w with
        | (Returned Break, w1, t1) => Finished (Returned tt) w1 t1
        | (Returned Continue, w1, t1) =>
            match run fuel' self w1 with
            | Finished o w2 t2 => Finished o w2 (t1 ++ t2)
            | Running w2 t2 => Running w2 (t1 ++ t2)
            end
        | (Raised e, w1, t1) => Finished (Raised e) w1 t1
        end
  end.

(** *** KodiPlayer *)

Definition requests_get (url : option string) : M Z :=
  emit (EvHttpGet url) ;;;
  match url with
  | None => raise RequestException
  | Some u =>
      match http u with
      | Response code => ret code
      | ConnectionFailed => raise RequestException
      end
  end.

Definition onPlayBackStarted (self : KodiPlayer) : M KodiPlayer :=
  p <- getInfoLabel_FilenameAndPath ;;
  if String.prefix "plugin://plugin.video.viervijfzes/" p
  then f <- getPlayingFile ;;
       ret {| listen := true; path := Some p;
              av_started := false; stream_path := Some f |}
  else ret {| listen := false; path := Some p;
              av_started := av_started self; stream_path := stream_path self |}.

Definition onAVStarted (self : KodiPlayer) : M KodiPlayer :=
  if negb (listen self) then ret self
  else ret {| listen := listen self; path := path self;
              av_started := true; stream_path := stream_path self |}.

(** What is left of a callback that only writes to the log:
    [if not self.listen: return], then the log line. *)
Definition log_only (self : KodiPlayer) : M KodiPlayer :=
  if negb (listen self) then ret self else ret self.

Definition onAVChange (self : KodiPlayer) : M KodiPlayer := log_only self.

Definition onPlayBackSeek (self : KodiPlayer) : M KodiPlayer := log_only self.

Definition onPlayBackPaused (self : KodiPlayer) : M KodiPlayer := log_only self.

Definition onPlayBackResumed (self : KodiPlayer) : M KodiPlayer := log_only self.

Definition onPlayBackError (self : KodiPlayer) : M KodiPlayer := log_only self.

Definition onPlayBackEnded (self : KodiPlayer) : M KodiPlayer := log_only self.

Definition onPlayBackStopped (self : KodiPlayer) : M KodiPlayer :=
  if negb (listen self) then ret self
  else if negb (av_started self)
  then status_code <- requests_get (stream_path self) ;;
       let message_id := if status_code =? 403 then 30720 else 30719 in
       ok_dialog (localize message_id) ;;;
       ret self
  else ret self.

Definition deliver (ev : PlayerEvent) (self : KodiPlayer) : M KodiPlayer :=
  match ev with
  | PlayBackStarted => onPlayBackStarted self
  | AVStarted => onAVStarted self
  | AVChange => onAVChange self
  | PlayBackSeek => onPlayBackSeek self
  | PlayBackPaused => onPlayBackPaused self
  | PlayBackResumed => onPlayBackResumed self
  | PlayBackError => onPlayBackError self
  | PlayBackStopped => onPlayBackStopped self
  | PlayBackEnded => onPlayBackEnded self
  end.

(** Kodi delivering callbacks one after the other; a callback that raises
    ends the sequence here. *)
Fixpoint deliver_all (evs : list PlayerEvent) (self : KodiPlayer) : M KodiPlayer :=
  match evs with
  | [] => ret self
  | ev :: evs' => self' <- deliver ev self ;; deliver_all evs' self'
  end.

End Service.

(** ** Reading traces *)

Definition is_refresh (ev : Event) : bool :=
  match ev with EvRefresh _ => true | _ => false end.

Definition is_probe (ev : Event) : bool :=
  match ev with EvHttpGet _ => true | _ => false end.

Definition is_dialog (ev : Event) : bool :=
  match ev with EvOkDialog _ => true | _ => false end.

Definition count_events (p : Event → bool) (t : list Event) : nat :=
  length (List.filter p t).

(** Every entry of the directory can be read and deleted. *)
Definition all_normal (d : gmap string CacheFile) : Prop :=
  map_Forall (λ _ f, condition f = Normal) d.

(** Whether the loop keeps a readable entry: the value of its [if] test on
    the entry's modification time. *)
Definition entry_kept (keep_expired : option Z) (now : Q) (f : CacheFile) : bool :=
  match keep_expired with
  | Some r => if (r =? 0)%Z then false else fresh_test r (st_mtime f) now
  | None => false
  end.
Arguments entry_kept : simpl never.

(** The credentials in the settings store. *)
Definition credentials (w : World) : string * string :=
  (stored "username" w, stored "password" w).

(** ** Hosts and worlds for the examples *)

Definition thirty_days : Z := 30 * 24 * 60 * 60.

Definition file_at (mtime : Z) (c : FileCondition) : CacheFile :=
  {| st_mtime := inject_Z mtime; condition := c |}.

Definition world_at (s : gmap string string) (d : option (gmap string CacheFile))
    (now : Z) : World :=
  {| settings := s; cache_dir := d; clock := inject_Z now;
     filename_and_path := "plugin://plugin.video.viervijfzes/play/catalog/abc";
     playing_file := "https://stream.example/abc.m3u8" |}.

(** A collaborator that takes five seconds and reports [result]. *)
Definition fetch_stub (result : Outcome bool)
    (_ : Z → Z → World → bool) (w : World) : Outcome bool * World :=
  (result, with_clock (clock w + 5) w).

(** A digest without collisions, standing in for MD5 in the examples. *)
Definition toy_hexdigest (s : string) : string := "md5:" +:+ s.

Definition http_always (r : HttpResult) (_ : string) : HttpResult := r.

(** ** More ways to read traces and callbacks *)

Definition is_stopped (ev : PlayerEvent) : bool :=
  match ev with PlayBackStopped => true | _ => false end.

(** ** scripts/check-for-unused-translations.py *)

(** [s.lstrip('#')] *)
Fixpoint lstrip_hash (s : string) : string :=
  match s with
  | String c s' => if Ascii.eqb c "#"%char then lstrip_hash s' else s
  | EmptyString => EmptyString
  end.

(** [sub in s], on strings. *)
Fixpoint contains (sub s : string) : bool :=
  match s with
  | EmptyString => String.prefix sub s
  | String _ s' => String.prefix sub s || contains sub s'
  end.

(** An entry of the [.po] file, as polib gives it; an entry written without
    a [msgctxt] line has [msgctxt = None]. *)
Record POEntry := {
  msgctxt : option string;
  msgid : string;
  msgstr : string
}.

(** How the script ends: [exit(error)], or the [AttributeError] of
    [None.lstrip]. *)
Inductive ScriptEnd := Exit (status : Z) | AttributeError.

(** The [for entry in po] loop, from the value [error] has on entry; the
    result lists the entries printed, in order, and tells how the script
    ends. *)
Fixpoint check_entries (code : string) (po : list POEntry) (error : Z)
  : list POEntry * ScriptEnd :=
  match po with
  | [] => ([], Exit error)
  | entry :: rest =>
      match msgctxt entry with
      | None => ([], AttributeError)
      | Some ctxt =>
          let ctxt := lstrip_hash ctxt in
          if negb (contains ctxt code)
          then match check_entries code rest 1 with
               | (printed, e) => (entry :: printed, e)
               end
          else check_entries code rest error
      end
  end.

(** The script, given what [git grep] printed and what polib read. *)
Definition check_for_unused_translations (code : string) (po : list POEntry)
  : list POEntry * ScriptEnd :=
  check_entries code po 0.

(** The test of the [if] in the loop, for an entry that has a [msgctxt]:
    [msgctxt not in code]. *)
Definition is_unused (code : string) (entry : POEntry) : bool :=
  match msgctxt entry with
  | Some ctxt => negb (contains (lstrip_hash ctxt) code)
  | None => false
  end.

(** * Facts *)

(** ** Time stamps *)

Lemma Qltb_lt (a b : Q) : Qltb a b = true ↔ (a < b)%Q.
Proof. unfold Qltb, Qlt. apply Z.ltb_lt. Qed.

Lemma Qltb_ge (a b : Q) : Qltb a b = false ↔ (b <= a)%Q.
Proof. unfold Qltb, Qle. rewrite Z.ltb_ge. reflexivity. Qed.



(** ** The sweep *)

Lemma with_cache_dir_same (w : World) (d : gmap string CacheFile) :
  cache_dir w = Some d → with_cache_dir (Some d) w = w.
Proof. destruct w; simpl; intros ->; reflexivity. Qed.

Lemma with_cache_dir_twice (w : World) (d1 d2 : option (gmap string CacheFile)) :
  with_cache_dir d2 (with_cache_dir d1 w) = with_cache_dir d2 w.
Proof. reflexivity. Qed.

Lemma sweep_entry_normal (k : option Z) (now : Q) (name : string) (w : World)
    (d : gmap string CacheFile) (f : CacheFile) :
  cache_dir w = Some d → d !! name = Some f → condition f = Normal →
  sweep_entry k now name w =
    (Returned tt,
     (if entry_kept k now f then w else with_cache_dir (Some (delete name d)) w),
     []).
Proof.
  intros Hd Hf Hc.
  unfold sweep_entry, still_fresh, entry_kept, bind, os_stat_mtime, os_unlink, ret.
  destruct k as [r|]; [destruct (r =? 0)%Z|]; simpl;
    rewrite ?Hd, ?Hf, ?Hc; simpl; try reflexivity.
  destruct (fresh_test r (st_mtime f) now); simpl; [reflexivity|].
  rewrite Hd, Hf, Hc. reflexivity.
Qed.

(** The loop over any listing without repetitions whose entries are all in
    good condition: it returns, and removes from the directory exactly the
    listed entries that fail the test. *)
Lemma for_each_sweep_normal (k : option Z) (now : Q) (names : list string) :
  ∀ (w : World) (d : gmap string CacheFile),
    cache_dir w = Some d → NoDup names →
    (∀ n, n ∈ names → ∃ f, d !! n = Some f ∧ condition f = Normal) →
    for_each names (sweep_entry k now) w =
      (Returned tt,
       with_cache_dir
         (Some (filter (λ kv, kv.1 ∉ names ∨ entry_kept k now kv.2 = true) d)) w,
       []).
Proof.
  induction names as [|a l IH]; intros w d Hd Hnd Hall; simpl.
  - unfold ret. rewrite map_filter_id by (intros; left; apply not_elem_of_nil).
    by rewrite with_cache_dir_same.
  - apply NoDup_cons in Hnd as [Hal Hnd].
    destruct (Hall a) as (f & Hf & Hc); [left|].
    unfold bind at 1. rewrite (sweep_entry_normal k now a w d f) by done.
    destruct (entry_kept k now f) eqn:Hk.
    + rewrite (IH w d) by (try done; intros n Hn; apply Hall; by right).
      simpl. do 4 f_equal. apply map_filter_ext. intros i x Hi. simpl.
      rewrite not_elem_of_cons. split; [|tauto].
      intros [Hn|Hx]; [|by right].
      destruct (decide (i = a)) as [->|Hne]; [|by left].
      right. congruence.
    + rewrite (IH _ (delete a d)); try done.
      * rewrite with_cache_dir_twice. simpl. do 4 f_equal.
        apply map_filter_strong_ext. intros i x. simpl.
        rewrite not_elem_of_cons.
        destruct (decide (i = a)) as [->|Hne].
        -- rewrite lookup_delete_eq. split; [intros [_ ?]; done|].
           intros [[[? _]|Hx] Hi]; [done|]. congruence.
        -- rewrite lookup_delete_ne by done. tauto.
      * intros n Hn. destruct (Hall n) as (g & Hg & Hgc); [by right|].
        exists g. split; [|done]. rewrite lookup_delete_ne; [done|].
        intros ->. done.
Qed.


(** The loop body looks at nothing but the entry it is given. *)
Lemma sweep_entry_local (k : option Z) (now : Q) (name : string) (w w' : World)
    (d d' : gmap string CacheFile) :
  cache_dir w = Some d → cache_dir w' = Some d' → d !! name = d' !! name →
  outcome_of (sweep_entry k now name w) = outcome_of (sweep_entry k now name w').
Proof.
  intros Hd Hd' Hn.
  unfold sweep_entry, still_fresh, bind, os_stat_mtime, os_unlink, ret, fresh_test.
  destruct (d !! name) as [f|] eqn:Hf; symmetry in Hn;
    [destruct (condition f) eqn:Hc|];
    (destruct k as [r|]; [destruct (r =? 0)%Z|]); simpl;
    rewrite ?Hd, ?Hd', ?Hn, ?Hf, ?Hc; simpl; try reflexivity;
    destruct (Qltb _ _); simpl; rewrite ?Hd, ?Hd', ?Hn, ?Hf, ?Hc; reflexivity.
Qed.


Lemma sweep_unfold (k : option Z) (w : World) (d : gmap string CacheFile) :
  cache_dir w = Some d →
  _remove_expired_metadata k w
  = for_each (map_to_list d).*1 (sweep_entry k (clock w)) w.
Proof.
  intros Hd. unfold _remove_expired_metadata, bind at 1, os_path_exists, gets.
  rewrite Hd. simpl.
  unfold bind at 1, time, gets. unfold bind at 1, os_listdir. rewrite Hd.
  destruct (for_each _ _ w) as [[o w'] t]. reflexivity.
Qed.

Lemma sweep_normal (k : option Z) (w : World) (d : gmap string CacheFile) :
  cache_dir w = Some d → all_normal d →
  _remove_expired_metadata k w =
    (Returned tt,
     with_cache_dir (Some (filter (λ kv, entry_kept k (clock w) kv.2 = true) d)) w,
     []).
Proof.
  intros Hd Hall.
  rewrite (sweep_unfold k w d) by done.
  rewrite (for_each_sweep_normal k (clock w) _ w d); try done.
  - simpl. do 4 f_equal. apply map_filter_ext. intros i x Hi. simpl.
    split; [|by right]. intros [Hn|Hx]; [|done].
    exfalso. apply Hn. apply list_elem_of_fmap. exists (i, x).
    split; [done|]. by apply elem_of_map_to_list.
  - apply NoDup_fst_map_to_list.
  - intros n Hn. apply list_elem_of_fmap in Hn as ([i x] & -> & Hix).
    apply elem_of_map_to_list in Hix. exists x. split; [done|].
    by apply (Hall i x).
Qed.




(** C10.  With a falsy retention argument ([None], the default, or [0]) the
    test of the loop is false without [os.stat] being called, whatever the
    time and the entry; and on a directory whose entries can all be deleted
    the sweep returns with the directory empty, whatever the ages. *)
Theorem falsy_retention_deletes_every_entry
    (k : option Z) (w : World) (d : gmap string CacheFile) :
  k = None ∨ k = Some 0 →
  cache_dir w = Some d → all_normal d →
  (∀ now name, still_fresh k now name = ret false)
  ∧ _remove_expired_metadata k w = (Returned tt, with_cache_dir (Some ∅) w, []).
Proof.
  intros Hk Hd Hall. split.
  - by destruct Hk as [-> | ->].
  - rewrite (sweep_normal k w d) by done. do 4 f_equal.
    apply map_empty. intros name. apply map_lookup_filter_None_2.
    right. intros f _. simpl. by destruct Hk as [-> | ->].
Qed.

(** An instance: the default argument empties a directory that holds an
    entry one second old. *)
Lemma falsy_retention_deletes_every_entry_witness :
  _remove_expired_metadata None
    (world_at ∅ (Some {[ "new.json" := file_at 1000 Normal;
                         "old.json" := file_at 0 Normal ]}) 1001)
  = (Returned tt,
     with_cache_dir (Some ∅)
       (world_at ∅ (Some {[ "new.json" := file_at 1000 Normal;
                            "old.json" := file_at 0 Normal ]}) 1001), []).
Proof.
  apply (falsy_retention_deletes_every_entry None _
           {[ "new.json" := file_at 1000 Normal; "old.json" := file_at 0 Normal ]}).
  - left; reflexivity.
  - reflexivity.
  - intros name f Hf.
    apply lookup_insert_Some in Hf as [[_ <-]|[_ Hf]]; [reflexivity|].
    apply lookup_singleton_Some in Hf as [_ <-]. reflexivity.
Defined.




(** ** The credential check *)

Lemma truthy_app (a b : string) : truthy (a +:+ b) = truthy a || truthy b.
Proof. by destruct a. Qed.

Lemma truthy_false (s : string) : truthy s = false ↔ s = "".
Proof. by destruct s. Qed.

Lemma new_hash_value (md5 : string → string) (w : World) :
  new_hash md5 w
  = (Returned (if truthy (stored "username" w +:+ stored "password" w)
               then md5 (stored "username" w +:+ stored "password" w)
               else ""), w, []).
Proof.
  rewrite truthy_app. unfold new_hash, bind, get_setting, gets, ret. simpl.
  destruct (truthy (stored "username" w)); simpl; [done|].
  by destruct (truthy (stored "password" w)).
Qed.

Lemma stored_insert_eq (key v : string) (w : World) :
  stored key (with_settings (<[key := v]> (settings w)) w) = v.
Proof. unfold stored. simpl. by rewrite lookup_insert_eq. Qed.

Lemma stored_insert_ne (key key' v : string) (w : World) :
  key ≠ key' →
  stored key' (with_settings (<[key := v]> (settings w)) w) = stored key' w.
Proof. intros Hne. unfold stored. simpl. by rewrite lookup_insert_ne. Qed.

(** C5.  [_has_credentials_changed] returns [True] iff the fingerprint of
    the stored username and password (the empty string, not a digest, when
    both are empty) differs from the stored fingerprint; when it returns
    [True] it has stored the new fingerprint and nothing else; and a second
    call right after the first returns [False]. *)
Theorem has_credentials_changed_iff_fingerprint_differs
    (md5 : string → string) (w : World) :
  let r := _has_credentials_changed md5 w in
  ∃ fp,
    outcome_of (new_hash md5 w) = Returned fp
    ∧ (stored "username" w = "" → stored "password" w = "" → fp = "")
    ∧ (stored "username" w ≠ "" ∨ stored "password" w ≠ "" →
       fp = md5 (stored "username" w +:+ stored "password" w))
    ∧ (outcome_of r = Returned true ↔ fp ≠ stored "credentials_hash" w)
    ∧ (outcome_of r = Returned false ↔ fp = stored "credentials_hash" w)
    ∧ (outcome_of r = Returned true →
       world_of r = with_settings (<["credentials_hash" := fp]> (settings w)) w)
    ∧ (outcome_of r = Returned false → world_of r = w)
    ∧ outcome_of (_has_credentials_changed md5 (world_of r)) = Returned false.
Proof.
  intros r. subst r.
  assert (Hrun : ∀ w0, _has_credentials_changed md5 w0
    = let fp := if truthy (stored "username" w0 +:+ stored "password" w0)
                then md5 (stored "username" w0 +:+ stored "password" w0) else "" in
      if bool_decide (fp ≠ stored "credentials_hash" w0)
      then (Returned true,
            with_settings (<["credentials_hash" := fp]> (settings w0)) w0, [])
      else (Returned false, w0, [])).
  { intros w0. unfold _has_credentials_changed, bind at 1, get_setting at 1, gets.
    unfold bind at 1. rewrite new_hash_value. simpl.
    by destruct (bool_decide _). }
  eexists. rewrite new_hash_value. split; [reflexivity|].
  set (fp := if truthy _ then _ else _).
  split; [|split].
  { intros Hu Hp. unfold fp. by rewrite Hu, Hp. }
  { intros Hne. unfold fp. rewrite truthy_app.
    destruct (stored "username" w) eqn:Hu, (stored "password" w) eqn:Hp;
      simpl; try done. by destruct Hne. }
  rewrite (Hrun w). fold fp. cbv zeta.
  destruct (bool_decide (fp ≠ stored "credentials_hash" w)) eqn:Hb.
  - apply bool_decide_eq_true in Hb. simpl.
    repeat split; try done.
    unfold world_of. cbn [fst snd]. rewrite Hrun. cbv zeta.
    rewrite !stored_insert_ne by done. fold fp.
    rewrite stored_insert_eq.
    rewrite bool_decide_eq_false_2; [done|]. by intros ?.
  - apply bool_decide_eq_false in Hb. apply dec_stable in Hb. simpl.
    repeat split; try done.
    unfold world_of. cbn [fst snd]. rewrite Hrun. cbv zeta. fold fp.
    rewrite bool_decide_eq_false_2; [done|]. by intros ?.
Qed.

(** An instance: credentials set, no fingerprint stored yet. *)
Lemma has_credentials_changed_iff_fingerprint_differs_witness :
  let w := world_at {[ "username" := "a"; "password" := "b" ]} None 0 in
  outcome_of (_has_credentials_changed toy_hexdigest w) = Returned true
  ∧ outcome_of (_has_credentials_changed toy_hexdigest
                  (world_of (_has_credentials_changed toy_hexdigest w)))
    = Returned false.
Proof.
  intros w.
  destruct (has_credentials_changed_iff_fingerprint_differs toy_hexdigest w)
    as (fp & _ & _ & Hfp & Htrue & _ & _ & _ & Hagain).
  split; [|exact Hagain].
  apply Htrue. rewrite Hfp; [vm_compute; discriminate|].
  left. vm_compute. discriminate.
Defined.

(** C6 (as amended).  The fingerprint is taken from the concatenation
    [username + password]: for a digest that is never the empty string, and
    two credential pairs whose concatenations the digest does not confuse,
    the fingerprints are equal iff the concatenations are equal. *)
Theorem fingerprints_equal_iff_concatenations_equal
    (md5 : string → string) (w1 w2 : World) :
  let c1 := stored "username" w1 +:+ stored "password" w1 in
  let c2 := stored "username" w2 +:+ stored "password" w2 in
  (∀ s, md5 s ≠ "") →
  (md5 c1 = md5 c2 → c1 = c2) →
  outcome_of (new_hash md5 w1) = outcome_of (new_hash md5 w2) ↔ c1 = c2.
Proof.
  intros c1 c2 Hne Hinj. rewrite !new_hash_value. fold c1 c2.
  unfold outcome_of. cbn [fst].
  split; [|by intros ->].
  destruct (truthy c1) eqn:H1, (truthy c2) eqn:H2; intros Heq.
  - apply Hinj. congruence.
  - destruct (Hne c1). congruence.
  - destruct (Hne c2). congruence.
  - apply truthy_false in H1, H2. congruence.
Qed.

(** An instance: two passwords for one username. *)
Lemma fingerprints_equal_iff_concatenations_equal_witness :
  outcome_of (new_hash toy_hexdigest
                (world_at {[ "username" := "a"; "password" := "b" ]} None 0))
  ≠ outcome_of (new_hash toy_hexdigest
                  (world_at {[ "username" := "a"; "password" := "c" ]} None 0)).
Proof.
  intros Heq.
  apply (fingerprints_equal_iff_concatenations_equal toy_hexdigest
           (world_at {[ "username" := "a"; "password" := "b" ]} None 0)
           (world_at {[ "username" := "a"; "password" := "c" ]} None 0)) in Heq.
  - vm_compute in Heq. discriminate.
  - intros s. discriminate.
  - vm_compute. discriminate.
Defined.

(** C6, the claim as written fails: the pairs [("a", "bc")] and
    [("ab", "c")] differ and have the same fingerprint, under a digest that
    has no collisions at all. *)
Lemma distinct_credentials_share_a_fingerprint :
  let w1 := world_at {[ "username" := "a"; "password" := "bc" ]} None 0 in
  let w2 := world_at {[ "username" := "ab"; "password" := "c" ]} None 0 in
  credentials w1 ≠ credentials w2
  ∧ outcome_of (new_hash toy_hexdigest w1) = outcome_of (new_hash toy_hexdigest w2)
  ∧ ∀ x y, toy_hexdigest x = toy_hexdigest y → x = y.
Proof.
  split; [vm_compute; discriminate|]. split; [vm_compute; reflexivity|].
  intros x y. unfold toy_hexdigest. simpl. intros [= H]. exact H.
Qed.

(** ** The player callbacks *)

Lemma deliver_all_app (http : string → HttpResult) (es1 es2 : list PlayerEvent)
    (self : KodiPlayer) (w : World) :
  deliver_all http (es1 ++ es2) self w
  = (self' <- deliver_all http es1 self ;; deliver_all http es2 self') w.
Proof.
  revert self w. induction es1 as [|ev es1 IH]; intros self w; simpl.
  - unfold bind, ret. by destruct (deliver_all http es2 self w) as [[o w'] t].
  - unfold bind. destruct (deliver http ev self w) as [[[self1|e] w1] t1]; [|done].
    rewrite IH. unfold bind.
    destruct (deliver_all http es1 self1 w1) as [[[self2|e] w2] t2]; [|done].
    destruct (deliver_all http es2 self2 w2) as [[o w3] t3].
    by rewrite app_assoc.
Qed.

(** Callbacks other than start, AV-start and stop change nothing. *)
Lemma deliver_all_log_only (http : string → HttpResult) (es : list PlayerEvent)
    (self : KodiPlayer) (w : World) :
  (∀ ev, ev ∈ es →
     ev ≠ PlayBackStarted ∧ ev ≠ AVStarted ∧ ev ≠ PlayBackStopped) →
  deliver_all http es self w = (Returned self, w, []).
Proof.
  revert self w. induction es as [|ev es IH]; intros self w Hes; [done|].
  simpl. unfold bind.
  assert (Hev : deliver http ev self w = (Returned self, w, [])).
  { destruct (Hes ev) as (H1 & H2 & H3); [left|].
    destruct ev; try done; simpl;
      unfold onAVChange, onPlayBackSeek, onPlayBackPaused, onPlayBackResumed,
        onPlayBackError, onPlayBackEnded, log_only;
      by destruct (listen self). }
  rewrite Hev, IH; [done|]. intros ev' Hin. apply Hes. by right.
Qed.

(** Once AV has started in a session that is listened to, only a new start
    or a stop can change anything. *)
Lemma deliver_all_after_av (http : string → HttpResult) (es : list PlayerEvent)
    (self : KodiPlayer) (w : World) :
  listen self = true → av_started self = true →
  (∀ ev, ev ∈ es → ev ≠ PlayBackStarted ∧ ev ≠ PlayBackStopped) →
  deliver_all http es self w = (Returned self, w, []).
Proof.
  intros Hl Hav. revert w. induction es as [|ev es IH]; intros w Hes; [done|].
  simpl. unfold bind.
  assert (Hev : deliver http ev self w = (Returned self, w, [])).
  { destruct (Hes ev) as (H1 & H3); [left|].
    destruct self as [l p a s]. simpl in Hl, Hav. subst l a.
    destruct ev; done. }
  rewrite Hev, IH; [done|]. intros ev' Hin. apply Hes. by right.
Qed.

Lemma started_relevant (w : World) (self : KodiPlayer) :
  String.prefix "plugin://plugin.video.viervijfzes/" (filename_and_path w) = true →
  onPlayBackStarted self w
  = (Returned {| listen := true; path := Some (filename_and_path w);
                 av_started := false; stream_path := Some (playing_file w) |},
     w, []).
Proof.
  intros Hrel.
  unfold onPlayBackStarted, bind, getInfoLabel_FilenameAndPath, getPlayingFile, gets, ret.
  by rewrite Hrel.
Qed.

Lemma stopped_without_av (http : string → HttpResult) (w : World)
    (p : option string) (url : string) :
  onPlayBackStopped http
    {| listen := true; path := p; av_started := false; stream_path := Some url |} w
  = match http url with
    | Response code =>
        (Returned {| listen := true; path := p; av_started := false;
                     stream_path := Some url |},
         w,
         [EvHttpGet (Some url);
          EvOkDialog (if code =? 403 then AccessForbidden else StreamUnavailable)])
    | ConnectionFailed => (Raised RequestException, w, [EvHttpGet (Some url)])
    end.
Proof.
  unfold onPlayBackStopped, requests_get, ok_dialog, bind, emit, raise, ret. simpl.
  destruct (http url) as [code|]; [|done]. simpl.
  by destruct (code =? 403).
Qed.

Lemma start_stop_run (http : string → HttpResult) (self : KodiPlayer) (w : World) :
  String.prefix "plugin://plugin.video.viervijfzes/" (filename_and_path w) = true →
  deliver_all http [PlayBackStarted; PlayBackStopped] self w
  = match http (playing_file w) with
    | Response code =>
        (Returned {| listen := true; path := Some (filename_and_path w);
                     av_started := false; stream_path := Some (playing_file w) |},
         w,
         [EvHttpGet (Some (playing_file w));
          EvOkDialog (if code =? 403 then AccessForbidden else StreamUnavailable)])
    | ConnectionFailed =>
        (Raised RequestException, w, [EvHttpGet (Some (playing_file w))])
    end.
Proof.
  intros Hrel. simpl. unfold bind at 1.
  rewrite started_relevant by done. unfold bind at 1.
  rewrite stopped_without_av.
  by destruct (http (playing_file w)) as [code|].
Qed.

(** C4 (as amended).  In a session of the add-on that stops before AV has
    started, the callback probes the stream once.  A response with status
    403 gives the "access forbidden" dialog, a response with any other
    status the "stream unavailable" dialog.  When the probe itself raises
    (no connection), the callback has no handler: the exception leaves the
    callback and no dialog is shown. *)
Theorem stop_without_av_classifies_the_response
    (http : string → HttpResult) (self : KodiPlayer) (w : World) :
  String.prefix "plugin://plugin.video.viervijfzes/" (filename_and_path w) = true →
  let r := deliver_all http [PlayBackStarted; PlayBackStopped] self w in
  match http (playing_file w) with
  | Response code =>
      (∃ self', outcome_of r = Returned self')
      ∧ trace_of r
        = [EvHttpGet (Some (playing_file w));
           EvOkDialog (if code =? 403 then AccessForbidden else StreamUnavailable)]
  | ConnectionFailed =>
      outcome_of r = Raised RequestException
      ∧ trace_of r = [EvHttpGet (Some (playing_file w))]
  end.
Proof.
  intros Hrel r. subst r. rewrite start_stop_run by done.
  destruct (http (playing_file w)) as [code|]; [|done].
  split; [by eexists|done].
Qed.

(** Instances: the stream answers 403, and 500. *)
Lemma stop_without_av_classifies_the_response_witness :
  trace_of (deliver_all (http_always (Response 403))
              [PlayBackStarted; PlayBackStopped] KodiPlayer__init__ (world_at ∅ None 0))
  = [EvHttpGet (Some "https://stream.example/abc.m3u8"); EvOkDialog AccessForbidden]
  ∧ trace_of (deliver_all (http_always (Response 500))
                [PlayBackStarted; PlayBackStopped] KodiPlayer__init__ (world_at ∅ None 0))
    = [EvHttpGet (Some "https://stream.example/abc.m3u8"); EvOkDialog StreamUnavailable].
Proof.
  split.
  - apply (stop_without_av_classifies_the_response (http_always (Response 403))
             KodiPlayer__init__ (world_at ∅ None 0)). reflexivity.
  - apply (stop_without_av_classifies_the_response (http_always (Response 500))
             KodiPlayer__init__ (world_at ∅ None 0)). reflexivity.
Defined.

(** C4, the claim as written fails: when the probe cannot connect, the stop
    callback raises and the user gets no dialog at all. *)
Lemma connection_error_leaves_the_callback :
  let r := deliver_all (http_always ConnectionFailed)
             [PlayBackStarted; PlayBackStopped] KodiPlayer__init__ (world_at ∅ None 0) in
  outcome_of r = Raised RequestException
  ∧ count_events is_probe (trace_of r) = 1%nat
  ∧ count_events is_dialog (trace_of r) = 0%nat.
Proof. vm_compute. repeat split; reflexivity. Qed.

(** C8.  In a session of the add-on: start, then any callbacks other than
    start, AV-start and stop, then stop, makes exactly one probe; start,
    then AV-start (with any callbacks other than start and stop around it),
    then stop, makes none. *)
Theorem probes_once_without_av_and_never_with_av
    (http : string → HttpResult) (self : KodiPlayer) (w : World)
    (es es1 es2 : list PlayerEvent) :
  String.prefix "plugin://plugin.video.viervijfzes/" (filename_and_path w) = true →
  (∀ ev, ev ∈ es ++ es1 →
     ev ≠ PlayBackStarted ∧ ev ≠ AVStarted ∧ ev ≠ PlayBackStopped) →
  (∀ ev, ev ∈ es2 → ev ≠ PlayBackStarted ∧ ev ≠ PlayBackStopped) →
  count_events is_probe
    (trace_of (deliver_all http (PlayBackStarted :: es ++ [PlayBackStopped]) self w))
  = 1%nat
  ∧ count_events is_probe
      (trace_of (deliver_all http
                   (PlayBackStarted :: es1 ++ AVStarted :: es2 ++ [PlayBackStopped])
                   self w))
    = 0%nat.
Proof.
  intros Hrel Hquiet Hes2. split.
  - simpl. unfold bind at 1. rewrite started_relevant by done.
    rewrite deliver_all_app. unfold bind at 1.
    rewrite deliver_all_log_only
      by (intros ev Hev; apply Hquiet, elem_of_app; by left).
    simpl. unfold bind at 1. rewrite stopped_without_av.
    by destruct (http (playing_file w)).
  - simpl. unfold bind at 1. rewrite started_relevant by done.
    rewrite deliver_all_app. unfold bind at 1.
    rewrite deliver_all_log_only
      by (intros ev Hev; apply Hquiet, elem_of_app; by right).
    simpl deliver_all. unfold bind at 1. simpl.
    rewrite deliver_all_app. unfold bind at 1.
    rewrite deliver_all_after_av by done.
    done.
Qed.

(** Instances: the two sequences without further callbacks. *)
Lemma probes_once_without_av_and_never_with_av_witness :
  count_events is_probe
    (trace_of (deliver_all (http_always (Response 403))
                 [PlayBackStarted; PlayBackStopped] KodiPlayer__init__ (world_at ∅ None 0)))
  = 1%nat
  ∧ count_events is_probe
      (trace_of (deliver_all (http_always (Response 403))
                   [PlayBackStarted; AVStarted; PlayBackStopped]
                   KodiPlayer__init__ (world_at ∅ None 0)))
    = 0%nat.
Proof.
  apply (probes_once_without_av_and_never_with_av (http_always (Response 403))
           KodiPlayer__init__ (world_at ∅ None 0) [] [] []).
  - reflexivity.
  - intros ev Hev. by apply elem_of_nil in Hev.
  - intros ev Hev. by apply elem_of_nil in Hev.
Defined.

(** ** Integers written to and read from the settings *)

Lemma int_of_str_str (z : Z) : int_of_str (str z) = Some z.
Proof.
  unfold int_of_str, str. rewrite NilZero.isi.
  - simpl. by rewrite DecimalZ.of_to.
  - destruct z; simpl; try done.
    intros [= H]. by apply DecimalPos.Unsigned.to_uint_nonnil in H.
  - destruct z; simpl; try done.
    intros [= H]. by apply DecimalPos.Unsigned.to_uint_nonnil in H.
Qed.

Lemma truthy_str (z : Z) : truthy (str z) = true.
Proof.
  unfold str.
  assert (Hu : ∀ d, truthy (NilZero.string_of_uint d) = true) by (by intros []).
  destruct (Z.to_int z); simpl; [apply Hu|done].
Qed.

(** ** The scheduler *)

Lemma count_events_app (p : Event → bool) (t1 t2 : list Event) :
  count_events p (t1 ++ t2) = (count_events p t1 + count_events p t2)%nat.
Proof. unfold count_events. by rewrite List.filter_app, length_app. Qed.

Lemma sweep_entry_quiet (k : option Z) (now : Q) (name : string) (w : World) :
  trace_of (sweep_entry k now name w) = []
  ∧ settings (world_of (sweep_entry k now name w)) = settings w
  ∧ clock (world_of (sweep_entry k now name w)) = clock w.
Proof.
  unfold sweep_entry, still_fresh, bind, os_stat_mtime, os_unlink, ret, fresh_test.
  destruct k as [r|]; [destruct (r =? 0)%Z|]; simpl;
    destruct (cache_dir w) as [d|] eqn:Hd; simpl; try done;
    destruct (d !! name) as [f|] eqn:Hn; simpl; try done;
    destruct (condition f) eqn:Hc; simpl; try done;
    destruct (Qltb _ _); simpl; rewrite ?Hd, ?Hn, ?Hc; done.
Qed.

Lemma for_each_sweep_quiet (k : option Z) (now : Q) (names : list string) (w : World) :
  trace_of (for_each names (sweep_entry k now) w) = []
  ∧ settings (world_of (for_each names (sweep_entry k now) w)) = settings w
  ∧ clock (world_of (for_each names (sweep_entry k now) w)) = clock w.
Proof.
  revert w. induction names as [|a l IH]; intros w; [done|].
  simpl. unfold bind.
  destruct (sweep_entry_quiet k now a w) as (Ht & Hs & Hc).
  destruct (sweep_entry k now a w) as [[[[]|e] w1] t1];
    unfold trace_of, world_of in *; simpl in *; subst t1; [|done].
  destruct (IH w1) as (Ht' & Hs' & Hc').
  destruct (for_each l (sweep_entry k now) w1) as [[o w2] t2].
  unfold trace_of, world_of in *; simpl in *. subst t2. by rewrite Hs', Hc'.
Qed.

(** The sweep writes no settings, does not touch the clock and calls no
    collaborator, whether it returns or raises. *)
Lemma sweep_quiet (k : option Z) (w : World) :
  trace_of (_remove_expired_metadata k w) = []
  ∧ settings (world_of (_remove_expired_metadata k w)) = settings w
  ∧ clock (world_of (_remove_expired_metadata k w)) = clock w.
Proof.
  destruct (cache_dir w) as [d|] eqn:Hd.
  - rewrite (sweep_unfold k w d) by done. apply for_each_sweep_quiet.
  - unfold _remove_expired_metadata, bind, os_path_exists, gets. by rewrite Hd.
Qed.

(** What a refresh cycle does, by the outcome of the sweep and of the
    collaborator. *)
Lemma update_metadata_run (abort_at : option Q)
    (fetch : (Z → Z → World → bool) → World → Outcome bool * World)
    (self : BackgroundService) (w : World) :
  _update_metadata abort_at fetch self w
  = match _remove_expired_metadata (Some (30 * 24 * 60 * 60)) w with
    | (Raised e, w1, _) => (Raised e, w1, [EvRefresh (clock w)])
    | (Returned _, w1, _) =>
        match fetch (update_status abort_at) w1 with
        | (Returned true, w2) =>
            (Returned tt,
             with_settings (<["metadata_last_updated" := str (int_of_float (clock w2))]>
                              (settings w2)) w2,
             [EvRefresh (clock w); EvFetchMetadata])
        | (Returned false, w2) =>
            (Returned tt, w2, [EvRefresh (clock w); EvFetchMetadata])
        | (Raised e, w2) => (Raised e, w2, [EvRefresh (clock w); EvFetchMetadata])
        end
    end.
Proof.
  unfold _update_metadata, bind at 1, time, gets.
  unfold bind at 1, emit. unfold bind at 1.
  destruct (sweep_quiet (Some (30 * 24 * 60 * 60)) w) as (Ht & _).
  destruct (_remove_expired_metadata _ w) as [[[[]|e] w1] t1];
    unfold trace_of in Ht; simpl in Ht; subst t1; [|done].
  unfold bind, Metadata_fetch_metadata.
  destruct (fetch (update_status abort_at) w1) as [[[|]|e] w2]; done.
Qed.

Lemma waitForAbort_run (abort_at : option Q) (timeout : Q) (w : World) :
  ∃ b w', waitForAbort abort_at timeout w = (Returned b, w', [])
        ∧ (b = false → abort_raised abort_at w' = false)
        ∧ (b = true → abort_raised abort_at w' = true)
        ∧ (abort_raised abort_at w = true → b = true ∧ w' = w).
Proof.
  unfold waitForAbort, abort_raised. destruct abort_at as [ta|].
  - destruct (Qle_bool ta (clock w)) eqn:H1.
    + exists true, w. by rewrite H1.
    + destruct (Qle_bool ta (clock w + timeout)) eqn:H2.
      * exists true, (with_clock ta w). simpl.
        split; [done|]. split; [done|]. split; [|congruence].
        intros _. apply Qle_bool_iff, Qle_refl.
      * exists false, (with_clock (clock w + timeout) w). by simpl.
  - exists false, (with_clock (clock w + timeout) w). by simpl.
Qed.

Lemma waitForAbort_settings (abort_at : option Q) (timeout : Q) (w : World) :
  settings (world_of (waitForAbort abort_at timeout w)) = settings w.
Proof.
  unfold waitForAbort. destruct abort_at as [ta|]; [|done].
  destruct (Qle_bool ta (clock w)); [done|].
  by destruct (Qle_bool ta (clock w + timeout)).
Qed.

(** The test of the loop reads settings and clock and changes nothing. *)
Lemma update_due_pure (self : BackgroundService) (w : World) :
  ∃ o, update_due self w = (o, w, []).
Proof.
  unfold update_due, bind, get_setting_bool, get_setting_or, int_, time, gets, ret, raise.
  destruct (bool_decide _); [|by eexists].
  destruct (truthy _); [|by eexists].
  destruct (int_of_str _); by eexists.
Qed.

Lemma update_due_value (self : BackgroundService) (w : World) (T0 : Z) :
  stored "metadata_update" w = "true" →
  stored "metadata_last_updated" w = str T0 →
  update_due self w
  = (Returned (Qltb (inject_Z (T0 + update_interval self)) (clock w)), w, []).
Proof.
  intros Hon Hlast.
  unfold update_due, bind, get_setting_bool, get_setting_or, int_, time, gets, ret.
  cbn beta iota. rewrite Hon. rewrite bool_decide_eq_true_2 by done.
  cbn beta iota. rewrite Hlast, truthy_str. cbn beta iota.
  by rewrite int_of_str_str.
Qed.

Lemma loop_body_cases (abort_at : option Q)
    (fetch : (Z → Z → World → bool) → World → Outcome bool * World)
    (self : BackgroundService) (w : World) :
  ∃ o, update_due self w = (o, w, [])
     ∧ match o with
       | Raised e => loop_body abort_at fetch self w = (Raised e, w, [])
       | Returned due =>
           ∃ o1 w1 t1,
             (if due then _update_metadata abort_at fetch self w
              else (Returned tt, w, [])) = (o1, w1, t1)
             ∧ match o1 with
               | Raised e => loop_body abort_at fetch self w = (Raised e, w1, t1)
               | Returned _ =>
                   ∃ b w2,
                     waitForAbort abort_at 10 w1 = (Returned b, w2, [])
                     ∧ loop_body abort_at fetch self w
                       = (Returned (if b then Break else Continue), w2, t1)
               end
       end.
Proof.
  destruct (update_due_pure self w) as [o Ho]. exists o. split; [done|].
  destruct o as [due|e]; [|by unfold loop_body, bind; rewrite Ho].
  destruct (if due then _update_metadata abort_at fetch self w
            else (Returned tt, w, [])) as [[o1 w1] t1] eqn:Hcycle.
  exists o1, w1, t1. split; [done|].
  assert (Hsame : (if due then _update_metadata abort_at fetch self else ret tt) w
                  = (o1, w1, t1)) by (by destruct due).
  destruct o1 as [[]|e]; [|by unfold loop_body, bind; rewrite Ho, Hsame].
  destruct (waitForAbort_run abort_at 10 w1) as (b & w2 & Hwait & _).
  exists b, w2. split; [done|].
  unfold loop_body, bind. rewrite Ho, Hsame, Hwait. unfold ret.
  by rewrite !app_nil_r.
Qed.

(** A refresh cycle leaves exactly one mark in the trace, at its start. *)
Lemma update_metadata_trace (abort_at : option Q)
    (fetch : (Z → Z → World → bool) → World → Outcome bool * World)
    (self : BackgroundService) (w : World) :
  ∃ t, trace_of (_update_metadata abort_at fetch self w) = EvRefresh (clock w) :: t
     ∧ (t = [] ∨ t = [EvFetchMetadata]).
Proof.
  rewrite update_metadata_run.
  destruct (_remove_expired_metadata _ w) as [[[[]|e] w1] t1].
  - destruct (fetch (update_status abort_at) w1) as [[[|]|e] w2];
      eexists; (split; [reflexivity|]); by right.
  - eexists. split; [reflexivity|]. by left.
Qed.

(** The trace of one pass: that of the refresh cycle when one is due,
    nothing otherwise. *)
Lemma loop_body_trace (abort_at : option Q)
    (fetch : (Z → Z → World → bool) → World → Outcome bool * World)
    (self : BackgroundService) (w : World) :
  trace_of (loop_body abort_at fetch self w)
  = match outcome_of (update_due self w) with
    | Returned true => trace_of (_update_metadata abort_at fetch self w)
    | _ => []
    end.
Proof.
  destruct (loop_body_cases abort_at fetch self w) as (o & Ho & Hcases).
  rewrite Ho. unfold outcome_of at 1. cbn [fst].
  destruct o as [due|e]; [|by rewrite Hcases].
  destruct Hcases as (o1 & w1 & t1 & Hcycle & Hrest).
  assert (Ht : trace_of (loop_body abort_at fetch self w) = t1).
  { destruct o1 as [[]|e]; [|by rewrite Hrest].
    destruct Hrest as (b & w2 & _ & ->). done. }
  rewrite Ht. destruct due; [by rewrite Hcycle|]. by injection Hcycle.
Qed.

(** C3.  In a refresh cycle whose sweep has returned: when the collaborator
    reports success, [metadata_last_updated] is set to the time read once
    the collaborator has returned, in whole seconds; when it reports
    failure (a cancelled fetch reports failure) or raises, the cycle writes
    nothing, so the stored value is the one from before the cycle unless the
    collaborator itself has overwritten it. *)
Theorem last_updated_is_written_on_success_only
    (abort_at : option Q)
    (fetch : (Z → Z → World → bool) → World → Outcome bool * World)
    (self : BackgroundService) (w w1 w2 : World) (t1 : list Event)
    (o : Outcome bool) :
  _remove_expired_metadata (Some (30 * 24 * 60 * 60)) w = (Returned tt, w1, t1) →
  fetch (update_status abort_at) w1 = (o, w2) →
  let r := _update_metadata abort_at fetch self w in
  (o = Returned true →
     outcome_of r = Returned tt
     ∧ stored "metadata_last_updated" (world_of r) = str (int_of_float (clock w2)))
  ∧ (o ≠ Returned true →
     world_of r = w2
     ∧ (stored "metadata_last_updated" w2 = stored "metadata_last_updated" w1 →
        stored "metadata_last_updated" (world_of r)
        = stored "metadata_last_updated" w)).
Proof.
  intros Hsweep Hfetch r. subst r. rewrite update_metadata_run, Hsweep, Hfetch.
  split.
  - intros ->. split; [done|]. unfold world_of. cbn [fst snd].
    apply stored_insert_eq.
  - intros Ho.
    assert (Hw : world_of (match o with
                           | Returned true =>
                               (Returned tt,
                                with_settings
                                  (<["metadata_last_updated" := str (int_of_float (clock w2))]>
                                     (settings w2)) w2,
                                [EvRefresh (clock w); EvFetchMetadata])
                           | Returned false =>
                               (Returned tt, w2, [EvRefresh (clock w); EvFetchMetadata])
                           | Raised e =>
                               (Raised e, w2, [EvRefresh (clock w); EvFetchMetadata])
                           end) = w2)
      by (by destruct o as [[|]|e]).
    rewrite Hw. split; [done|]. intros ->.
    destruct (sweep_quiet (Some (30 * 24 * 60 * 60)) w) as (_ & Hs & _).
    rewrite Hsweep in Hs. unfold world_of in Hs. cbn [fst snd] in Hs.
    unfold stored. by rewrite Hs.
Qed.

(** Instances: a fetch that succeeds and one that fails, five seconds after
    the cycle began at 100000. *)
Lemma last_updated_is_written_on_success_only_witness :
  let w := world_at {[ "metadata_last_updated" := "1000" ]} None 100000 in
  stored "metadata_last_updated"
    (world_of (_update_metadata None (fetch_stub (Returned true))
                 BackgroundService__init__ w)) = "100005"
  ∧ stored "metadata_last_updated"
      (world_of (_update_metadata None (fetch_stub (Returned false))
                   BackgroundService__init__ w)) = "1000".
Proof.
  intros w. split.
  - apply (last_updated_is_written_on_success_only None (fetch_stub (Returned true))
             BackgroundService__init__ w w (with_clock (clock w + 5) w) []
             (Returned true)); reflexivity.
  - apply (last_updated_is_written_on_success_only None (fetch_stub (Returned false))
             BackgroundService__init__ w w (with_clock (clock w + 5) w) []
             (Returned false)); try reflexivity. discriminate.
Defined.

(** As long as no refresh cycle is due, a pass only waits: it leaves the
    settings alone and the trace empty. *)
Lemma loop_body_not_due (abort_at : option Q)
    (fetch : (Z → Z → World → bool) → World → Outcome bool * World)
    (self : BackgroundService) (w : World) :
  update_due self w = (Returned false, w, []) →
  ∃ (b : bool) w', loop_body abort_at fetch self w
          = (Returned (if b then Break else Continue), w', [])
        ∧ settings w' = settings w.
Proof.
  intros Hdue.
  destruct (loop_body_cases abort_at fetch self w) as (o & Ho & Hcases).
  rewrite Hdue in Ho. injection Ho as <-. cbn beta iota in Hcases.
  destruct Hcases as (o1 & w1 & t1 & Hcycle & Hrest).
  injection Hcycle as <- <- <-.
  destruct Hrest as (b & w2 & Hwait & Hbody).
  exists b, w2. split; [done|].
  pose proof (waitForAbort_settings abort_at 10 w) as Hs.
  by rewrite Hwait in Hs.
Qed.

(** C2 (as amended).  With updates switched on and the stored time stamp
    [T0], a pass of the loop at time [t] starts a refresh cycle iff
    [T0 + update_interval < t], strictly, and then exactly one, before
    anything else: at [t <= T0 + update_interval], the boundary included,
    it starts none.  Hence the first refresh cycle of a run of the loop
    starts at a time strictly after [T0 + update_interval]. *)
Theorem refresh_starts_iff_interval_has_passed
    (abort_at : option Q)
    (fetch : (Z → Z → World → bool) → World → Outcome bool * World)
    (self : BackgroundService) (w : World) (T0 : Z) :
  stored "metadata_update" w = "true" →
  stored "metadata_last_updated" w = str T0 →
  let t := trace_of (loop_body abort_at fetch self w) in
  ((clock w <= inject_Z (T0 + update_interval self))%Q →
     count_events is_refresh t = 0%nat)
  ∧ ((inject_Z (T0 + update_interval self) < clock w)%Q →
     count_events is_refresh t = 1%nat ∧ head t = Some (EvRefresh (clock w)))
  ∧ (∀ fuel t1,
       head (run_trace (run abort_at fetch fuel self w)) = Some (EvRefresh t1) →
       (inject_Z (T0 + update_interval self) < t1)%Q).
Proof.
  intros Hon Hlast t. subst t.
  rewrite loop_body_trace, (update_due_value self w T0) by done.
  unfold outcome_of. cbn [fst]. split; [|split].
  - intros Hle. apply Qltb_ge in Hle. by rewrite Hle.
  - intros Hlt. apply Qltb_lt in Hlt. rewrite Hlt.
    destruct (update_metadata_trace abort_at fetch self w) as (t & -> & [-> | ->]); done.
  - intros fuel. revert w Hon Hlast.
    induction fuel as [|fuel IH]; intros w Hon Hlast t1 Hhead; [done|].
    simpl in Hhead. destruct (abort_raised abort_at w); [done|].
    pose proof (update_due_value self w T0 Hon Hlast) as Hdue.
    destruct (Qltb (inject_Z (T0 + update_interval self)) (clock w)) eqn:Hlt.
    + assert (Hfirst : head (trace_of (loop_body abort_at fetch self w))
                       = Some (EvRefresh (clock w))).
      { rewrite loop_body_trace, Hdue. unfold outcome_of. cbn [fst].
        by destruct (update_metadata_trace abort_at fetch self w) as (t & -> & _). }
      assert (Ht1 : t1 = clock w).
      { destruct (loop_body abort_at fetch self w) as [[[[|]|e] w1] tr];
          unfold trace_of in Hfirst; cbn [snd] in Hfirst;
          destruct tr as [|ev tr]; try done;
          try destruct (run abort_at fetch fuel self w1);
          simpl in Hfirst, Hhead; congruence. }
      subst t1. by apply Qltb_lt.
    + destruct (loop_body_not_due abort_at fetch self w Hdue)
        as (b & w' & Hbody & Hs).
      rewrite Hbody in Hhead. destruct b; [done|].
      apply (IH w'); unfold stored; rewrite ?Hs; try done.
      by destruct (run abort_at fetch fuel self w').
Qed.

(** Instances: one second before and one second after [T0 + I]. *)
Lemma refresh_starts_iff_interval_has_passed_witness :
  let s : gmap string string :=
    {[ "metadata_update" := "true"; "metadata_last_updated" := "1000" ]} in
  count_events is_refresh
    (trace_of (loop_body None (fetch_stub (Returned true)) BackgroundService__init__
                 (world_at s None 87399))) = 0%nat
  ∧ count_events is_refresh
      (trace_of (loop_body None (fetch_stub (Returned true)) BackgroundService__init__
                   (world_at s None 87401))) = 1%nat.
Proof.
  intros s. split.
  - apply (refresh_starts_iff_interval_has_passed None (fetch_stub (Returned true))
             BackgroundService__init__ (world_at s None 87399) 1000);
      [reflexivity | reflexivity | vm_compute; discriminate].
  - apply (refresh_starts_iff_interval_has_passed None (fetch_stub (Returned true))
             BackgroundService__init__ (world_at s None 87401) 1000);
      [reflexivity | reflexivity | vm_compute; reflexivity].
Defined.

(** C2, the claim as written fails at the boundary: with updates switched
    on, the time stamp 1000 and the interval of the service (86400 s), the
    pass at time 87400 = T0 + I starts no refresh cycle. *)
Lemma no_refresh_at_the_boundary :
  let self := BackgroundService__init__ in
  let w := world_at {[ "metadata_update" := "true";
                       "metadata_last_updated" := "1000" ]} None 87400 in
  stored "metadata_update" w = "true"
  ∧ stored "metadata_last_updated" w = str 1000
  ∧ (inject_Z (1000 + update_interval self) <= clock w)%Q
  ∧ count_events is_refresh
      (trace_of (loop_body None (fetch_stub (Returned true)) self w)) = 0%nat.
Proof.
  repeat split; try reflexivity. vm_compute. discriminate.
Qed.

Lemma loop_body_refresh_time (abort_at : option Q)
    (fetch : (Z → Z → World → bool) → World → Outcome bool * World)
    (self : BackgroundService) (w : World) (t : Q) :
  EvRefresh t ∈ trace_of (loop_body abort_at fetch self w) → t = clock w.
Proof.
  rewrite loop_body_trace.
  destruct (outcome_of (update_due self w)) as [[|]|e];
    try (by intros ?%elem_of_nil).
  destruct (update_metadata_trace abort_at fetch self w) as (tr & -> & [-> | ->]);
    intros Hin; repeat (apply elem_of_cons in Hin as [Hin|Hin]);
    try (by apply elem_of_nil in Hin); congruence.
Qed.

Lemma loop_body_continue (abort_at : option Q)
    (fetch : (Z → Z → World → bool) → World → Outcome bool * World)
    (self : BackgroundService) (w w' : World) (t : list Event) :
  loop_body abort_at fetch self w = (Returned Continue, w', t) →
  abort_raised abort_at w' = false.
Proof.
  intros Hbody.
  destruct (loop_body_cases abort_at fetch self w) as (o & _ & Hcases).
  destruct o as [due|e]; [|congruence].
  destruct Hcases as (o1 & w1 & t1 & _ & Hrest).
  destruct o1 as [[]|e]; [|congruence].
  destruct Hrest as (b & w2 & Hwait & Heq).
  destruct (waitForAbort_run abort_at 10 w1) as (b' & w2' & Hwait' & Hfalse & _).
  rewrite Hwait in Hwait'. injection Hwait' as <- <-.
  rewrite Heq in Hbody. destruct b; [discriminate|].
  injection Hbody as <- _. by apply Hfalse.
Qed.

(** C9.  Once the abort signal is up: at the head of the loop, [run]
    returns at once, with no refresh cycle and nothing changed; a pass
    during which the signal came up is the last one, [run] leaves the loop
    at its end; and in every run, finished or not, every refresh cycle was
    started strictly before the signal. *)
Theorem abort_stops_the_loop
    (abort_at : option Q)
    (fetch : (Z → Z → World → bool) → World → Outcome bool * World)
    (self : BackgroundService) :
  (∀ fuel w, abort_raised abort_at w = true →
     run abort_at fetch (S fuel) self w = Finished (Returned tt) w [])
  ∧ (∀ fuel w o w' t,
       abort_raised abort_at w = false →
       loop_body abort_at fetch self w = (o, w', t) →
       abort_raised abort_at w' = true →
       o ≠ Returned Continue
       ∧ ∃ o', run abort_at fetch (S fuel) self w = Finished o' w' t)
  ∧ (∀ fuel w t ta,
       EvRefresh t ∈ run_trace (run abort_at fetch fuel self w) →
       abort_at = Some ta → (t < ta)%Q).
Proof.
  split; [|split].
  - intros fuel w Hup. simpl. by rewrite Hup.
  - intros fuel w o w' t Hdown Hbody Hup.
    assert (Hne : o ≠ Returned Continue).
    { intros ->. apply loop_body_continue in Hbody. congruence. }
    split; [done|]. simpl. rewrite Hdown, Hbody.
    destruct o as [[|]|e]; [done| |]; by eexists.
  - induction fuel as [|fuel IH]; intros w t ta Hin Hat;
      [by apply elem_of_nil in Hin|].
    simpl in Hin. destruct (abort_raised abort_at w) eqn:Hdown;
      [by apply elem_of_nil in Hin|].
    assert (Hnow : EvRefresh t ∈ trace_of (loop_body abort_at fetch self w)
                   → (t < ta)%Q).
    { intros ->%loop_body_refresh_time.
      unfold abort_raised in Hdown. rewrite Hat in Hdown.
      apply not_true_iff_false in Hdown. rewrite Qle_bool_iff in Hdown.
      by apply Qnot_le_lt. }
    destruct (loop_body abort_at fetch self w) as [[[[|]|e] w1] t1];
      [|by apply Hnow..].
    assert (Hsplit : EvRefresh t ∈ t1 ++ run_trace (run abort_at fetch fuel self w1))
      by (by destruct (run abort_at fetch fuel self w1)).
    apply elem_of_app in Hsplit as [Hin1|Hin2]; [by apply Hnow|].
    by apply (IH w1 t ta).
Qed.

(** Instances: the signal is up before the loop starts; the signal comes
    up while the collaborator is at work. *)
Lemma abort_stops_the_loop_witness :
  let self := BackgroundService__init__ in
  let fetch := fetch_stub (Returned true) in
  let w := world_at {[ "metadata_update" := "true" ]} None 100000 in
  run (Some (inject_Z 99999)) fetch 1 self w = Finished (Returned tt) w []
  ∧ (∃ o', run (Some (inject_Z 100003)) fetch 1 self w
           = Finished o' (world_of (loop_body (Some (inject_Z 100003)) fetch self w))
               [EvRefresh (inject_Z 100000); EvFetchMetadata])
  ∧ (inject_Z 100000 < inject_Z 100003)%Q.
Proof.
  intros self fetch w.
  destruct (abort_stops_the_loop (Some (inject_Z 99999)) fetch self) as (Hhead & _ & _).
  destruct (abort_stops_the_loop (Some (inject_Z 100003)) fetch self)
    as (_ & Hlast & Hbefore).
  split; [|split].
  - apply Hhead. reflexivity.
  - apply (Hlast 0%nat w (Returned Break)); reflexivity.
  - apply (Hbefore 1%nat w); [|reflexivity]. left.
Defined.

(** * More facts *)

(** ** The sweep, whatever the condition of the entries *)

(** What the loop body can do to the world: nothing, or delete the entry it
    was given, and this only when the entry was in good condition and failed
    the test. *)
Lemma sweep_entry_cases (k : option Z) (now : Q) (name : string) (w : World) :
  (∃ o, sweep_entry k now name w = (o, w, []))
  ∨ (∃ d f, cache_dir w = Some d ∧ d !! name = Some f ∧ condition f = Normal
          ∧ entry_kept k now f = false
          ∧ sweep_entry k now name w
            = (Returned tt, with_cache_dir (Some (delete name d)) w, [])).
Proof.
  unfold sweep_entry, still_fresh, bind, os_stat_mtime, os_unlink, ret.
  destruct (cache_dir w) as [d|] eqn:Hd;
    [destruct (d !! name) as [f|] eqn:Hf; [destruct (condition f) eqn:Hc|]|];
    (destruct k as [r|]; [destruct (r =? 0)%Z eqn:Hr|]); simpl;
    rewrite ?Hd, ?Hf, ?Hc; simpl;
    try destruct (fresh_test r (st_mtime f) now) eqn:Hfresh; simpl;
    rewrite ?Hd, ?Hf, ?Hc; simpl;
    try (left; eexists; reflexivity);
    right; exists d, f; unfold entry_kept; rewrite ?Hr, ?Hfresh; by repeat split.
Qed.

(** On which entries the loop body returns. *)
Lemma sweep_entry_returns_iff (k : option Z) (now : Q) (name : string) (w : World)
    (d : gmap string CacheFile) (f : CacheFile) :
  cache_dir w = Some d → d !! name = Some f →
  outcome_of (sweep_entry k now name w) = Returned tt
  ↔ condition f = Normal
    ∨ (condition f = Undeletable ∧ entry_kept k now f = true).
Proof.
  intros Hd Hf.
  unfold sweep_entry, still_fresh, entry_kept, bind, os_stat_mtime, os_unlink, ret,
    outcome_of.
  destruct (condition f) eqn:Hc;
    (destruct k as [r|]; [destruct (r =? 0)%Z eqn:Hr|]); simpl;
    rewrite ?Hd, ?Hf, ?Hc; simpl;
    try destruct (fresh_test r (st_mtime f) now) eqn:Hfresh; simpl;
    rewrite ?Hd, ?Hf, ?Hc; simpl; split; intros H;
    try done; try (by left); try (by right);
    try (destruct H as [H|[H1 H2]]; congruence).
Qed.





Lemma sweep_entry_passable (k : option Z) (now : Q) (name : string) (w : World)
    (d : gmap string CacheFile) (f : CacheFile) :
  cache_dir w = Some d → d !! name = Some f →
  condition f = Normal ∨ (condition f = Undeletable ∧ entry_kept k now f = true) →
  sweep_entry k now name w =
    (Returned tt,
     (if entry_kept k now f then w else with_cache_dir (Some (delete name d)) w),
     []).
Proof.
  intros Hd Hf [Hc | [Hc Hk]]; [by apply sweep_entry_normal|].
  rewrite Hk. revert Hk.
  unfold sweep_entry, still_fresh, entry_kept, bind, os_stat_mtime, os_unlink, ret.
  destruct k as [r|]; [destruct (r =? 0)%Z|]; simpl; try done.
  rewrite Hd, Hf, Hc. simpl. by intros ->.
Qed.

(** The loop goes through on a listing without repetitions iff its body
    goes through on every listed entry, tried in the world before the
    loop. *)
Lemma for_each_sweep_returns_iff (k : option Z) (now : Q) (names : list string) :
  ∀ (w : World) (d : gmap string CacheFile),
    cache_dir w = Some d → NoDup names →
    outcome_of (for_each names (sweep_entry k now) w) = Returned tt
    ↔ ∀ n, n ∈ names → outcome_of (sweep_entry k now n w) = Returned tt.
Proof.
  induction names as [|a l IH]; intros w d Hd Hnd.
  - split; [|done]. intros _ n Hn. by apply elem_of_nil in Hn.
  - apply NoDup_cons in Hnd as [Hal Hnd]. simpl. unfold bind at 1.
    assert (Hstep : ∀ w1 d1, cache_dir w1 = Some d1 →
              (∀ n, n ≠ a → d1 !! n = d !! n) →
              sweep_entry k now a w = (Returned tt, w1, []) →
              outcome_of (for_each l (sweep_entry k now) w1) = Returned tt
              ↔ ∀ n, n ∈ a :: l → outcome_of (sweep_entry k now n w) = Returned tt).
    { intros w1 d1 Hd1 Hsame Ha. rewrite (IH w1 d1) by done. split.
      - intros Hl n [->|Hn]%elem_of_cons; [by rewrite Ha|].
        rewrite (sweep_entry_local k now n w w1 d d1); try done; [by apply Hl|].
        symmetry. apply Hsame. by intros ->.
      - intros Hall n Hn.
        rewrite <- (sweep_entry_local k now n w w1 d d1); try done.
        + apply Hall. by right.
        + symmetry. apply Hsame. by intros ->. }
    destruct (sweep_entry_cases k now a w)
      as [[o Hsame] | (d0 & f0 & Hd0 & Hf0 & Hc0 & Hk0 & Hdel)].
    + rewrite Hsame. destruct o as [[]|e].
      * rewrite <- (Hstep w d) by done.
        by destruct (for_each l (sweep_entry k now) w) as [[o w2] t2].
      * split; [done|]. intros Hall. specialize (Hall a). rewrite Hsame in Hall.
        by apply Hall; left.
    + assert (d0 = d) as -> by congruence. rewrite Hdel.
      rewrite <- (Hstep (with_cache_dir (Some (delete a d)) w) (delete a d));
        try done.
      * by destruct (for_each l (sweep_entry k now) _) as [[o w2] t2].
      * intros n Hn. by rewrite lookup_delete_ne.
Qed.

Lemma for_each_sweep_passable (k : option Z) (now : Q) (names : list string) :
  ∀ (w : World) (d : gmap string CacheFile),
    cache_dir w = Some d → NoDup names →
    (∀ n, n ∈ names →
       ∃ f, d !! n = Some f
          ∧ (condition f = Normal
             ∨ (condition f = Undeletable ∧ entry_kept k now f = true))) →
    for_each names (sweep_entry k now) w =
      (Returned tt,
       with_cache_dir
         (Some (filter (λ kv, kv.1 ∉ names ∨ entry_kept k now kv.2 = true) d)) w,
       []).
Proof.
  induction names as [|a l IH]; intros w d Hd Hnd Hall; simpl.
  - unfold ret. rewrite map_filter_id by (intros; left; apply not_elem_of_nil).
    by rewrite with_cache_dir_same.
  - apply NoDup_cons in Hnd as [Hal Hnd].
    destruct (Hall a) as (f & Hf & Hc); [left|].
    unfold bind at 1. rewrite (sweep_entry_passable k now a w d f) by done.
    destruct (entry_kept k now f) eqn:Hk.
    + rewrite (IH w d) by (try done; intros n Hn; apply Hall; by right).
      simpl. do 4 f_equal. apply map_filter_ext. intros i x Hi. simpl.
      rewrite not_elem_of_cons. split; [|tauto].
      intros [Hn|Hx]; [|by right].
      destruct (decide (i = a)) as [->|Hne]; [|by left].
      right. congruence.
    + rewrite (IH _ (delete a d)); try done.
      * rewrite with_cache_dir_twice. simpl. do 4 f_equal.
        apply map_filter_strong_ext. intros i x. simpl.
        rewrite not_elem_of_cons.
        destruct (decide (i = a)) as [->|Hne].
        -- rewrite lookup_delete_eq. split; [intros [_ ?]; done|].
           intros [[[? _]|Hx] Hi]; [done|]. congruence.
        -- rewrite lookup_delete_ne by done. tauto.
      * intros n Hn. destruct (Hall n) as (g & Hg & Hgc); [by right|].
        exists g. split; [|done]. rewrite lookup_delete_ne; [done|].
        intros ->. done.
Qed.

Lemma sweep_passable (k : option Z) (w : World) (d : gmap string CacheFile) :
  cache_dir w = Some d →
  map_Forall (λ _ f, condition f = Normal
                     ∨ (condition f = Undeletable
                        ∧ entry_kept k (clock w) f = true)) d →
  _remove_expired_metadata k w =
    (Returned tt,
     with_cache_dir (Some (filter (λ kv, entry_kept k (clock w) kv.2 = true) d)) w,
     []).
Proof.
  intros Hd Hall. rewrite (sweep_unfold k w d) by done.
  rewrite (for_each_sweep_passable k (clock w) _ w d); try done.
  - simpl. do 4 f_equal. apply map_filter_ext. intros i x Hi. simpl.
    split; [|by right]. intros [Hn|Hx]; [|done].
    exfalso. apply Hn. apply list_elem_of_fmap. exists (i, x).
    split; [done|]. by apply elem_of_map_to_list.
  - apply NoDup_fst_map_to_list.
  - intros n Hn. apply list_elem_of_fmap in Hn as ([i x] & -> & Hix).
    apply elem_of_map_to_list in Hix. exists x. split; [done|].
    by apply (Hall i x).
Qed.

Lemma sweep_returns_iff_passable
    (k : option Z) (w : World) (d : gmap string CacheFile) :
  cache_dir w = Some d →
  outcome_of (_remove_expired_metadata k w) = Returned tt
  ↔ ∀ name f, d !! name = Some f →
      condition f = Normal
      ∨ (condition f = Undeletable ∧ entry_kept k (clock w) f = true).
Proof.
  intros Hd. rewrite (sweep_unfold k w d) by done.
  rewrite (for_each_sweep_returns_iff k (clock w) _ w d)
    by (try done; apply NoDup_fst_map_to_list).
  split.
  - intros Hall name f Hf.
    apply (sweep_entry_returns_iff k (clock w) name w d f); try done.
    apply Hall. apply list_elem_of_fmap. exists (name, f).
    split; [done|]. by apply elem_of_map_to_list.
  - intros Hall n Hn. apply list_elem_of_fmap in Hn as ([i x] & -> & Hix).
    apply elem_of_map_to_list in Hix. simpl.
    apply (sweep_entry_returns_iff k (clock w) i w d x); try done.
    by apply (Hall i x).
Qed.



(** X4.  A sweep that has returned leaves nothing to do for a second sweep
    at the same time: the second one returns and changes nothing. *)
Theorem sweep_twice_is_sweep_once (k : option Z) (w : World) :
  outcome_of (_remove_expired_metadata k w) = Returned tt →
  _remove_expired_metadata k (world_of (_remove_expired_metadata k w))
  = (Returned tt, world_of (_remove_expired_metadata k w), []).
Proof.
  intros Hret. destruct (cache_dir w) as [d|] eqn:Hd.
  - assert (Hok : map_Forall (λ _ f, condition f = Normal
                     ∨ (condition f = Undeletable
                        ∧ entry_kept k (clock w) f = true)) d).
    { intros name f Hf.
      by apply (proj1 (sweep_returns_iff_passable k w d Hd) Hret name f). }
    rewrite (sweep_passable k w d) by done. unfold world_of. cbn [fst snd].
    set (d1 := filter _ d).
    rewrite (sweep_passable k (with_cache_dir (Some d1) w) d1); [|done|].
    + rewrite with_cache_dir_twice. do 4 f_equal.
      apply map_filter_id. intros i x Hi.
      by apply map_lookup_filter_Some in Hi as [_ Hi].
    + intros name f Hf. apply map_lookup_filter_Some in Hf as [Hf _].
      by apply (Hok name f).
  - assert (Hrun : _remove_expired_metadata k w = (Returned tt, w, [])).
    { unfold _remove_expired_metadata, bind, os_path_exists, gets. by rewrite Hd. }
    rewrite Hrun. unfold world_of. cbn [fst snd]. exact Hrun.
Qed.

(** An instance: an old entry is deleted, a young one that cannot be
    deleted stays; the second sweep finds nothing to do. *)
Lemma sweep_twice_is_sweep_once_witness :
  let w := world_at ∅ (Some {[ "new.json" := file_at 1000 Undeletable;
                               "old.json" := file_at 0 Normal ]})
                    (thirty_days + 500) in
  _remove_expired_metadata (Some thirty_days)
    (world_of (_remove_expired_metadata (Some thirty_days) w))
  = (Returned tt, world_of (_remove_expired_metadata (Some thirty_days) w), []).
Proof.
  intros w. apply (sweep_twice_is_sweep_once (Some thirty_days) w).
  vm_compute. reflexivity.
Defined.

(** ** The credential check and the settings callback *)

Lemma has_credentials_changed_run (md5 : string → string) (w : World) :
  _has_credentials_changed md5 w
  = let fp := if truthy (stored "username" w +:+ stored "password" w)
              then md5 (stored "username" w +:+ stored "password" w) else "" in
    if bool_decide (fp ≠ stored "credentials_hash" w)
    then (Returned true,
          with_settings (<["credentials_hash" := fp]> (settings w)) w, [])
    else (Returned false, w, []).
Proof.
  unfold _has_credentials_changed, bind at 1, get_setting at 1, gets.
  unfold bind at 1. rewrite new_hash_value. simpl.
  by destruct (bool_decide _).
Qed.

Lemma onSettingsChanged_run (md5 : string → string) (w : World) :
  onSettingsChanged md5 w
  = let fp := if truthy (stored "username" w +:+ stored "password" w)
              then md5 (stored "username" w +:+ stored "password" w) else "" in
    if bool_decide (fp ≠ stored "credentials_hash" w)
    then (Returned tt,
          with_settings (<["credentials_hash" := fp]> (settings w)) w,
          [EvClearTokens; EvContainerRefresh])
    else (Returned tt, w, []).
Proof.
  unfold onSettingsChanged, bind at 1. rewrite has_credentials_changed_run.
  cbv zeta. by destruct (bool_decide _).
Qed.

(** X5.  [onSettingsChanged] never raises.  When the fingerprint of the
    stored credentials differs from the stored fingerprint it clears the
    tokens and then refreshes the container, once each; otherwise it does
    nothing.  A second notification right after the first does nothing. *)
Theorem settings_change_clears_tokens_once (md5 : string → string) (w : World) :
  let r := onSettingsChanged md5 w in
  outcome_of r = Returned tt
  ∧ (outcome_of (new_hash md5 w) ≠ Returned (stored "credentials_hash" w) →
     trace_of r = [EvClearTokens; EvContainerRefresh])
  ∧ (outcome_of (new_hash md5 w) = Returned (stored "credentials_hash" w) →
     r = (Returned tt, w, []))
  ∧ onSettingsChanged md5 (world_of r) = (Returned tt, world_of r, []).
Proof.
  intros r. subst r. rewrite new_hash_value, onSettingsChanged_run.
  unfold outcome_of at 2 3. cbn [fst]. cbv zeta.
  set (fp := if truthy _ then _ else _).
  destruct (bool_decide (fp ≠ stored "credentials_hash" w)) eqn:Hb.
  - apply bool_decide_eq_true in Hb.
    split; [done|]. split; [done|]. split; [congruence|].
    unfold world_of. cbn [fst snd]. rewrite onSettingsChanged_run. cbv zeta.
    rewrite !stored_insert_ne by done. fold fp. rewrite stored_insert_eq.
    rewrite bool_decide_eq_false_2; [done|]. by intros ?.
  - apply bool_decide_eq_false in Hb. apply dec_stable in Hb.
    split; [done|]. split; [congruence|]. split; [done|].
    unfold world_of. cbn [fst snd]. rewrite onSettingsChanged_run. cbv zeta.
    fold fp. rewrite bool_decide_eq_false_2; [done|]. by intros ?.
Qed.

(** An instance: credentials are entered for the first time. *)
Lemma settings_change_clears_tokens_once_witness :
  let w := world_at {[ "username" := "a"; "password" := "b" ]} None 0 in
  trace_of (onSettingsChanged toy_hexdigest w) = [EvClearTokens; EvContainerRefresh]
  ∧ trace_of (onSettingsChanged toy_hexdigest
                (world_of (onSettingsChanged toy_hexdigest w))) = [].
Proof.
  intros w.
  destruct (settings_change_clears_tokens_once toy_hexdigest w)
    as (_ & Hdiff & _ & Hagain).
  split; [apply Hdiff; vm_compute; discriminate | by rewrite Hagain].
Defined.

(** X6.  The credential check and the settings callback write no setting
    but [credentials_hash], and leave the rest of the world alone. *)
Theorem credential_check_writes_the_fingerprint_only
    (md5 : string → string) (w : World) (key : string) :
  key ≠ "credentials_hash" →
  let r := _has_credentials_changed md5 w in
  let r' := onSettingsChanged md5 w in
  settings (world_of r) !! key = settings w !! key
  ∧ world_of r = with_settings (settings (world_of r)) w
  ∧ world_of r' = world_of r.
Proof.
  intros Hkey r r'. subst r r'.
  rewrite has_credentials_changed_run, onSettingsChanged_run. cbv zeta.
  destruct (bool_decide _); unfold world_of; cbn [fst snd]; simpl.
  - by rewrite lookup_insert_ne.
  - split; [done|]. split; [|done]. by destruct w.
Qed.

(** An instance: the stored password survives the check. *)
Lemma credential_check_writes_the_fingerprint_only_witness :
  let w := world_at {[ "username" := "a"; "password" := "b" ]} None 0 in
  settings (world_of (_has_credentials_changed toy_hexdigest w)) !! "password"
  = Some "b".
Proof.
  intros w.
  destruct (credential_check_writes_the_fingerprint_only toy_hexdigest w "password")
    as (Hkey & _); [discriminate|].
  rewrite Hkey. reflexivity.
Defined.

(** X7.  With no username and no password the digest is not consulted: the
    check returns [True] iff a non-empty fingerprint is stored, and the
    stored fingerprint is empty afterwards.  So clearing the credentials is
    reported once, and a store that never held any reports nothing. *)
Theorem empty_credentials_have_the_empty_fingerprint
    (md5 : string → string) (w : World) :
  stored "username" w = "" →
  stored "password" w = "" →
  let r := _has_credentials_changed md5 w in
  outcome_of r = Returned (bool_decide (stored "credentials_hash" w ≠ ""))
  ∧ stored "credentials_hash" (world_of r) = "".
Proof.
  intros Hu Hp r. subst r. rewrite has_credentials_changed_run, Hu, Hp.
  simpl. destruct (decide ("" ≠ stored "credentials_hash" w)) as [Hne|Heq].
  - rewrite bool_decide_eq_true_2 by done.
    rewrite (bool_decide_eq_true_2 (stored "credentials_hash" w ≠ ""))
      by (by intros ?).
    split; [done|]. unfold world_of. cbn [fst snd]. apply stored_insert_eq.
  - apply dec_stable in Heq.
    rewrite bool_decide_eq_false_2 by (by intros ?).
    rewrite (bool_decide_eq_false_2 (stored "credentials_hash" w ≠ ""))
      by (by intros ?).
    done.
Qed.

(** Instances: the credentials were cleared; there never were any. *)
Lemma empty_credentials_have_the_empty_fingerprint_witness :
  outcome_of (_has_credentials_changed toy_hexdigest
                (world_at {[ "credentials_hash" := "md5:ab" ]} None 0))
  = Returned true
  ∧ outcome_of (_has_credentials_changed toy_hexdigest (world_at ∅ None 0))
    = Returned false.
Proof.
  split.
  - destruct (empty_credentials_have_the_empty_fingerprint toy_hexdigest
                (world_at {[ "credentials_hash" := "md5:ab" ]} None 0))
      as [Hret _]; [reflexivity..|].
    rewrite Hret. vm_compute. reflexivity.
  - destruct (empty_credentials_have_the_empty_fingerprint toy_hexdigest
                (world_at ∅ None 0)) as [Hret _]; [reflexivity..|].
    rewrite Hret. vm_compute. reflexivity.
Defined.

(** ** The refresh cycle and the loop *)

(** X8.  A refresh cycle whose sweep raises, raises the same exception
    without calling the collaborator.  Otherwise it calls the collaborator
    once, on the world the sweep has left; it returns normally whether the
    collaborator reports success or failure, and raises what the
    collaborator raises. *)
Theorem refresh_cycle_outcome
    (abort_at : option Q)
    (fetch : (Z → Z → World → bool) → World → Outcome bool * World)
    (self : BackgroundService) (w : World) :
  let s := _remove_expired_metadata (Some (30 * 24 * 60 * 60)) w in
  let r := _update_metadata abort_at fetch self w in
  match outcome_of s with
  | Raised e => r = (Raised e, world_of s, [EvRefresh (clock w)])
  | Returned _ =>
      trace_of r = [EvRefresh (clock w); EvFetchMetadata]
      ∧ outcome_of r
        = match (fetch (update_status abort_at) (world_of s)).1 with
          | Returned _ => Returned tt
          | Raised e => Raised e
          end
      ∧ cache_dir (world_of r)
        = cache_dir (fetch (update_status abort_at) (world_of s)).2
  end.
Proof.
  intros s r. subst s r. rewrite update_metadata_run.
  destruct (_remove_expired_metadata _ w) as [[[[]|e] w1] t1];
    unfold outcome_of, world_of; cbn [fst snd]; [|done].
  by destruct (fetch (update_status abort_at) w1) as [[[|]|e] w2].
Qed.

Lemma waitForAbort_world (abort_at : option Q) (timeout : Q) (w : World) :
  ∃ (b : bool) c,
    waitForAbort abort_at timeout w = (Returned b, with_clock c w, [])
    ∧ ((0 <= timeout)%Q → (clock w <= c)%Q)
    ∧ (b = false → c = (clock w + timeout)%Q)
    ∧ (b = true → abort_raised abort_at (with_clock c w) = true).
Proof.
  assert (Hid : with_clock (clock w) w = w) by (by destruct w).
  unfold waitForAbort, abort_raised. destruct abort_at as [ta|].
  - destruct (Qle_bool ta (clock w)) eqn:H1.
    + exists true, (clock w). rewrite Hid.
      split; [done|]. split; [intros; apply Qle_refl|]. split; [done|].
      by rewrite H1.
    + destruct (Qle_bool ta (clock w + timeout)) eqn:H2.
      * exists true, ta. split; [done|]. split.
        { intros _. apply Qlt_le_weak, Qnot_le_lt. rewrite <- Qle_bool_iff.
          by rewrite H1. }
        split; [done|]. intros _. apply Qle_bool_iff, Qle_refl.
      * exists false, (clock w + timeout)%Q.
        split; [done|]. split; [intros; simpl; lra|]. done.
  - exists false, (clock w + timeout)%Q.
    split; [done|]. split; [intros; simpl; lra|]. done.
Qed.

Lemma update_due_off (self : BackgroundService) (w : World) :
  stored "metadata_update" w ≠ "true" →
  update_due self w = (Returned false, w, []).
Proof.
  intros Hoff. unfold update_due, bind, get_setting_bool, gets, ret.
  cbn beta iota. by rewrite bool_decide_eq_false_2.
Qed.

Lemma update_due_unset (self : BackgroundService) (w : World) :
  stored "metadata_update" w = "true" →
  stored "metadata_last_updated" w = "" →
  update_due self w
  = (Returned (Qltb (inject_Z (0 + update_interval self)) (clock w)), w, []).
Proof.
  intros Hon Hlast.
  unfold update_due, bind, get_setting_bool, get_setting_or, int_, time, gets, ret.
  cbn beta iota. rewrite Hon. rewrite bool_decide_eq_true_2 by done.
  cbn beta iota. by rewrite Hlast.
Qed.

(** The pass when no refresh is due: a wait and nothing else. *)
Lemma loop_body_idle (abort_at : option Q)
    (fetch : (Z → Z → World → bool) → World → Outcome bool * World)
    (self : BackgroundService) (w : World) :
  update_due self w = (Returned false, w, []) →
  ∃ (b : bool) c,
    loop_body abort_at fetch self w
    = (Returned (if b then Break else Continue), with_clock c w, [])
    ∧ (b = true → abort_raised abort_at (with_clock c w) = true).
Proof.
  intros Hdue.
  destruct (loop_body_cases abort_at fetch self w) as (o & Ho & Hcases).
  rewrite Hdue in Ho. injection Ho as <-. cbn beta iota in Hcases.
  destruct Hcases as (o1 & w1 & t1 & Hcycle & Hrest).
  injection Hcycle as <- <- <-.
  destruct Hrest as (b & w2 & Hwait & Hbody).
  destruct (waitForAbort_world abort_at 10 w) as (b' & c & Hwait' & _ & _ & Hup).
  rewrite Hwait in Hwait'. injection Hwait' as -> ->.
  by exists b', c.
Qed.

(** X9.  While [metadata_update] is not switched on, the loop never starts
    a refresh cycle, never raises and changes nothing but the clock,
    whatever [metadata_last_updated] holds: the time stamp is not even
    read. *)
Theorem updates_switched_off_nothing_happens
    (abort_at : option Q)
    (fetch : (Z → Z → World → bool) → World → Outcome bool * World)
    (self : BackgroundService) (w : World) (fuel : nat) :
  stored "metadata_update" w ≠ "true" →
  ∃ c, match run abort_at fetch fuel self w with
       | Finished o w' t => o = Returned tt ∧ w' = with_clock c w ∧ t = []
       | Running w' t => w' = with_clock c w ∧ t = []
       end.
Proof.
  assert (Hid : ∀ w0, with_clock (clock w0) w0 = w0) by (by intros []).
  revert w. induction fuel as [|fuel IH]; intros w Hoff.
  - exists (clock w). by rewrite Hid.
  - simpl. destruct (abort_raised abort_at w).
    { exists (clock w). by rewrite Hid. }
    destruct (loop_body_idle abort_at fetch self w (update_due_off self w Hoff))
      as (b & c & -> & _).
    destruct b; [by exists c|].
    destruct (IH (with_clock c w)) as (c' & Hrest); [done|].
    exists c'. by destruct (run abort_at fetch fuel self (with_clock c w)).
Qed.

(** An instance: switched off, with a time stamp that is no number. *)
Lemma updates_switched_off_nothing_happens_witness :
  run_trace (run None (fetch_stub (Returned true)) 5 BackgroundService__init__
               (world_at {[ "metadata_update" := "false";
                            "metadata_last_updated" := "soon" ]} None 100000))
  = [].
Proof.
  destruct (updates_switched_off_nothing_happens None (fetch_stub (Returned true))
              BackgroundService__init__
              (world_at {[ "metadata_update" := "false";
                           "metadata_last_updated" := "soon" ]} None 100000) 5)
    as (c & Hrun); [discriminate|].
  destruct (run _ _ _ _ _);
    [destruct Hrun as (_ & _ & ->) | destruct Hrun as (_ & ->)]; reflexivity.
Defined.

(** X10.  With updates switched on and no time stamp stored, the time stamp
    counts as 0: a pass at time [t] starts a refresh cycle iff
    [update_interval < t]. *)
Theorem missing_time_stamp_counts_as_zero
    (abort_at : option Q)
    (fetch : (Z → Z → World → bool) → World → Outcome bool * World)
    (self : BackgroundService) (w : World) :
  stored "metadata_update" w = "true" →
  stored "metadata_last_updated" w = "" →
  let t := trace_of (loop_body abort_at fetch self w) in
  ((clock w <= inject_Z (update_interval self))%Q →
     count_events is_refresh t = 0%nat)
  ∧ ((inject_Z (update_interval self) < clock w)%Q →
     count_events is_refresh t = 1%nat).
Proof.
  intros Hon Hlast t. subst t.
  rewrite loop_body_trace, (update_due_unset self w) by done.
  unfold outcome_of. cbn [fst]. rewrite Z.add_0_l. split.
  - intros Hle. apply Qltb_ge in Hle. by rewrite Hle.
  - intros Hlt. apply Qltb_lt in Hlt. rewrite Hlt.
    destruct (update_metadata_trace abort_at fetch self w) as (t & -> & [-> | ->]); done.
Qed.

(** An instance: the first pass of a fresh installation, long after 1970. *)
Lemma missing_time_stamp_counts_as_zero_witness :
  count_events is_refresh
    (trace_of (loop_body None (fetch_stub (Returned true)) BackgroundService__init__
                 (world_at {[ "metadata_update" := "true" ]} None 1700000000)))
  = 1%nat.
Proof.
  apply (missing_time_stamp_counts_as_zero None (fetch_stub (Returned true))
           BackgroundService__init__
           (world_at {[ "metadata_update" := "true" ]} None 1700000000));
    [reflexivity | reflexivity | vm_compute; reflexivity].
Defined.

(** A pass in which a cycle is due: the cycle, then the wait. *)
Lemma loop_body_due (abort_at : option Q)
    (fetch : (Z → Z → World → bool) → World → Outcome bool * World)
    (self : BackgroundService) (w : World) :
  update_due self w = (Returned true, w, []) →
  match _update_metadata abort_at fetch self w with
  | (Raised e, w1, t1) => loop_body abort_at fetch self w = (Raised e, w1, t1)
  | (Returned _, w1, t1) =>
      ∃ (b : bool) c,
        loop_body abort_at fetch self w
        = (Returned (if b then Break else Continue), with_clock c w1, t1)
        ∧ (clock w1 <= c)%Q
        ∧ (b = false → c = (clock w1 + 10)%Q)
  end.
Proof.
  intros Hdue.
  destruct (loop_body_cases abort_at fetch self w) as (o & Ho & Hcases).
  rewrite Hdue in Ho. injection Ho as <-. cbn beta iota in Hcases.
  destruct Hcases as (o1 & w1 & t1 & -> & Hrest).
  destruct o1 as [[]|e]; [|done].
  destruct Hrest as (b & w2 & Hwait & Hbody).
  destruct (waitForAbort_world abort_at 10 w1) as (b' & c & Hwait' & Hle & Hc & _).
  rewrite Hwait in Hwait'. injection Hwait' as -> ->.
  exists b', c. split; [done|]. split; [by apply Hle|done].
Qed.

(** X11.  The time stamp a successful cycle writes is the one the loop
    reads back: with updates switched on, a later pass starts no refresh
    cycle until the clock has passed that time stamp (the whole seconds of
    the time the fetch returned) plus [update_interval], and it starts one
    right after. *)
Theorem written_time_stamp_is_read_back
    (abort_at : option Q)
    (fetch : (Z → Z → World → bool) → World → Outcome bool * World)
    (self : BackgroundService) (w w1 w2 w3 : World) (t1 : list Event) :
  _remove_expired_metadata (Some (30 * 24 * 60 * 60)) w = (Returned tt, w1, t1) →
  fetch (update_status abort_at) w1 = (Returned true, w2) →
  stored "metadata_update" w2 = "true" →
  settings w3 = settings (world_of (_update_metadata abort_at fetch self w)) →
  let t := trace_of (loop_body abort_at fetch self w3) in
  ((clock w3 <= inject_Z (int_of_float (clock w2) + update_interval self))%Q →
     count_events is_refresh t = 0%nat)
  ∧ ((inject_Z (int_of_float (clock w2) + update_interval self) < clock w3)%Q →
     count_events is_refresh t = 1%nat).
Proof.
  intros Hsweep Hfetch Hon Hs t. subst t.
  rewrite update_metadata_run, Hsweep, Hfetch in Hs.
  unfold world_of in Hs. cbn [fst snd] in Hs. simpl in Hs.
  assert (Hon3 : stored "metadata_update" w3 = "true").
  { unfold stored. rewrite Hs, lookup_insert_ne by done. exact Hon. }
  assert (Hlast3 : stored "metadata_last_updated" w3
                   = str (int_of_float (clock w2))).
  { unfold stored. by rewrite Hs, lookup_insert_eq. }
  rewrite loop_body_trace,
    (update_due_value self w3 (int_of_float (clock w2))) by done.
  unfold outcome_of. cbn [fst]. split.
  - intros Hle. apply Qltb_ge in Hle. by rewrite Hle.
  - intros Hlt. apply Qltb_lt in Hlt. rewrite Hlt.
    destruct (update_metadata_trace abort_at fetch self w3)
      as (t & -> & [-> | ->]); done.
Qed.

(** An instance: a cycle that ends at 100005; ten seconds later no
    refresh, a day and a second later a refresh. *)
Lemma written_time_stamp_is_read_back_witness :
  let s : gmap string string := {[ "metadata_update" := "true" ]} in
  let w := world_at s None 100000 in
  let done := world_of (_update_metadata None (fetch_stub (Returned true))
                          BackgroundService__init__ w) in
  count_events is_refresh
    (trace_of (loop_body None (fetch_stub (Returned true)) BackgroundService__init__
                 (with_clock (inject_Z 100015) done))) = 0%nat
  ∧ count_events is_refresh
      (trace_of (loop_body None (fetch_stub (Returned true)) BackgroundService__init__
                   (with_clock (inject_Z 186406) done))) = 1%nat.
Proof.
  intros s w done. split.
  - apply (written_time_stamp_is_read_back None (fetch_stub (Returned true))
             BackgroundService__init__ w w (with_clock (clock w + 5) w)
             (with_clock (inject_Z 100015) done) []);
      [reflexivity | reflexivity | reflexivity | reflexivity
      | vm_compute; discriminate].
  - apply (written_time_stamp_is_read_back None (fetch_stub (Returned true))
             BackgroundService__init__ w w (with_clock (clock w + 5) w)
             (with_clock (inject_Z 186406) done) []);
      [reflexivity | reflexivity | reflexivity | reflexivity
      | vm_compute; reflexivity].
Defined.

(** X12.  A refresh cycle whose fetch reports failure is tried again at the
    next pass: when the collaborator has left the settings alone and has
    not set the clock back, the pass after the failed one starts a refresh
    cycle too. *)
Theorem failed_refresh_is_retried_at_the_next_pass
    (abort_at : option Q)
    (fetch : (Z → Z → World → bool) → World → Outcome bool * World)
    (self : BackgroundService) (w w1 w2 : World) (t1 : list Event) (T0 : Z) :
  stored "metadata_update" w = "true" →
  stored "metadata_last_updated" w = str T0 →
  (inject_Z (T0 + update_interval self) < clock w)%Q →
  _remove_expired_metadata (Some (30 * 24 * 60 * 60)) w = (Returned tt, w1, t1) →
  fetch (update_status abort_at) w1 = (Returned false, w2) →
  settings w2 = settings w1 →
  (clock w1 <= clock w2)%Q →
  count_events is_refresh
    (trace_of (loop_body abort_at fetch self
                 (world_of (loop_body abort_at fetch self w)))) = 1%nat.
Proof.
  intros Hon Hlast Hlt Hsweep Hfetch Hs2 Hc2.
  pose proof (update_due_value self w T0 Hon Hlast) as Hdue.
  pose proof Hlt as Hltb. apply Qltb_lt in Hltb. rewrite Hltb in Hdue.
  pose proof (loop_body_due abort_at fetch self w Hdue) as Hbody.
  rewrite update_metadata_run, Hsweep, Hfetch in Hbody.
  destruct Hbody as (b & c & -> & Hc & _).
  unfold world_of. cbn [fst snd].
  destruct (sweep_quiet (Some (30 * 24 * 60 * 60)) w) as (_ & Hs1 & Hc1).
  rewrite Hsweep in Hs1, Hc1. unfold world_of in Hs1, Hc1. cbn [fst snd] in Hs1, Hc1.
  set (w' := with_clock c w2).
  assert (Hon' : stored "metadata_update" w' = "true")
    by (unfold stored, w'; simpl; by rewrite Hs2, Hs1).
  assert (Hlast' : stored "metadata_last_updated" w' = str T0)
    by (unfold stored, w'; simpl; by rewrite Hs2, Hs1).
  rewrite loop_body_trace, (update_due_value self w' T0) by done.
  unfold outcome_of. cbn [fst].
  assert (Hlt' : (inject_Z (T0 + update_interval self) < clock w')%Q).
  { unfold w'. simpl. rewrite Hc1 in Hc2. lra. }
  apply Qltb_lt in Hlt'. rewrite Hlt'.
  destruct (update_metadata_trace abort_at fetch self w') as (t & -> & [-> | ->]); done.
Qed.

(** An instance: two passes with a fetch that fails. *)
Lemma failed_refresh_is_retried_at_the_next_pass_witness :
  let w := world_at {[ "metadata_update" := "true";
                       "metadata_last_updated" := "1000" ]} None 100000 in
  count_events is_refresh
    (trace_of (loop_body None (fetch_stub (Returned false)) BackgroundService__init__
                 (world_of (loop_body None (fetch_stub (Returned false))
                              BackgroundService__init__ w)))) = 1%nat.
Proof.
  intros w.
  apply (failed_refresh_is_retried_at_the_next_pass None (fetch_stub (Returned false))
           BackgroundService__init__ w w (with_clock (clock w + 5) w) [] 1000);
    try reflexivity; vm_compute; (reflexivity || discriminate).
Defined.

(** A refresh cycle does not set the clock back when the collaborator does
    not. *)
Lemma update_metadata_clock (abort_at : option Q)
    (fetch : (Z → Z → World → bool) → World → Outcome bool * World)
    (self : BackgroundService) (w : World) :
  (∀ cb w0, (clock w0 <= clock (fetch cb w0).2)%Q) →
  (clock w <= clock (world_of (_update_metadata abort_at fetch self w)))%Q.
Proof.
  intros Hmono. rewrite update_metadata_run.
  destruct (sweep_quiet (Some (30 * 24 * 60 * 60)) w) as (_ & _ & Hc).
  destruct (_remove_expired_metadata _ w) as [[[[]|e] w1] t1];
    unfold world_of in *; cbn [fst snd] in *; [|rewrite Hc; apply Qle_refl].
  specialize (Hmono (update_status abort_at) w1).
  destruct (fetch (update_status abort_at) w1) as [[[|]|e] w2];
    simpl in *; rewrite <- Hc; exact Hmono.
Qed.

(** A pass after which the loop goes on has taken ten seconds at least. *)
Lemma loop_body_takes_ten_seconds (abort_at : option Q)
    (fetch : (Z → Z → World → bool) → World → Outcome bool * World)
    (self : BackgroundService) (w w' : World) (t : list Event) :
  (∀ cb w0, (clock w0 <= clock (fetch cb w0).2)%Q) →
  loop_body abort_at fetch self w = (Returned Continue, w', t) →
  (clock w + 10 <= clock w')%Q.
Proof.
  intros Hmono Hbody.
  destruct (update_due_pure self w) as [[[|]|e] Hdue].
  - pose proof (loop_body_due abort_at fetch self w Hdue) as Hcases.
    pose proof (update_metadata_clock abort_at fetch self w Hmono) as Hclock.
    destruct (_update_metadata abort_at fetch self w) as [[[[]|e] w1] t1];
      [|congruence].
    destruct Hcases as (b & c & Heq & _ & Hc).
    rewrite Heq in Hbody. destruct b; [discriminate|].
    injection Hbody as <- _. rewrite Hc by done.
    unfold world_of in Hclock. cbn [fst snd] in Hclock. simpl. lra.
  - destruct (waitForAbort_world abort_at 10 w) as (b'' & c'' & Hwait & _ & Hc & _).
    destruct (loop_body_cases abort_at fetch self w) as (o & Ho & Hcases).
    rewrite Hdue in Ho. injection Ho as <-. cbn beta iota in Hcases.
    destruct Hcases as (o1 & w1 & t1 & Hcycle & Hrest).
    injection Hcycle as <- <- <-.
    destruct Hrest as (b0 & w0 & Hwait0 & Hbody0).
    rewrite Hwait in Hwait0. injection Hwait0 as <- <-.
    rewrite Hbody0 in Hbody. destruct b''; [discriminate|].
    injection Hbody as <- _. rewrite Hc by done. simpl. apply Qle_refl.
  - destruct (loop_body_cases abort_at fetch self w) as (o & Ho & Hcases).
    rewrite Hdue in Ho. injection Ho as <-. congruence.
Qed.

(** X13.  When the abort signal comes at some time and the collaborator
    never sets the clock back, the loop is left: if the signal is at most
    [10 * n] seconds away, [run] has finished after at most [n + 1]
    passes. *)
Theorem run_finishes_after_the_abort_signal
    (ta : Q)
    (fetch : (Z → Z → World → bool) → World → Outcome bool * World)
    (self : BackgroundService) (n : nat) (w : World) :
  (∀ cb w0, (clock w0 <= clock (fetch cb w0).2)%Q) →
  (ta <= clock w + 10 * inject_Z (Z.of_nat n))%Q →
  ∃ o w' t, run (Some ta) fetch (S n) self w = Finished o w' t.
Proof.
  intros Hmono. revert w. induction n as [|n IH]; intros w Hta.
  - exists (Returned tt), w, []. simpl.
    assert (Hup : Qle_bool ta (clock w) = true).
    { apply Qle_bool_iff. change (inject_Z (Z.of_nat 0)) with 0%Q in Hta. lra. }
    by rewrite Hup.
  - change (run (Some ta) fetch (S (S n)) self w)
      with (if abort_raised (Some ta) w then Finished (Returned tt) w []
            else match loop_body (Some ta) fetch self w with
                 | (Returned Break, w1, t1) => Finished (Returned tt) w1 t1
                 | (Returned Continue, w1, t1) =>
                     match run (Some ta) fetch (S n) self w1 with
                     | Finished o w2 t2 => Finished o w2 (t1 ++ t2)
                     | Running w2 t2 => Running w2 (t1 ++ t2)
                     end
                 | (Raised e, w1, t1) => Finished (Raised e) w1 t1
                 end).
    destruct (abort_raised (Some ta) w); [by eexists _, _, _|].
    destruct (loop_body (Some ta) fetch self w) as [[[[|]|e] w1] t1] eqn:Hbody;
      [|by eexists _, _, _..].
    apply loop_body_takes_ten_seconds in Hbody; [|done].
    destruct (IH w1) as (o & w2 & t2 & ->).
    + rewrite Nat2Z.inj_succ, <- Z.add_1_r, inject_Z_plus in Hta.
      change (inject_Z 1) with 1%Q in Hta. lra.
    + by eexists _, _, _.
Qed.

(** An instance: the signal comes 25 seconds after the start; three passes
    are enough. *)
Lemma run_finishes_after_the_abort_signal_witness :
  ∃ o w' t,
    run (Some (inject_Z 100025)) (fetch_stub (Returned true)) 4
      BackgroundService__init__
      (world_at {[ "metadata_update" := "true" ]} None 100000)
    = Finished o w' t.
Proof.
  apply (run_finishes_after_the_abort_signal (inject_Z 100025)
           (fetch_stub (Returned true)) BackgroundService__init__ 3
           (world_at {[ "metadata_update" := "true" ]} None 100000)).
  - intros cb w0. unfold fetch_stub. simpl. lra.
  - vm_compute. discriminate.
Defined.

(** X14.  Without an abort signal the loop is never left in the normal
    way: whenever [run] has finished, it has finished with an exception. *)
Theorem without_abort_only_an_exception_ends_the_loop
    (fetch : (Z → Z → World → bool) → World → Outcome bool * World)
    (self : BackgroundService) (fuel : nat) (w w' : World)
    (o : Outcome unit) (t : list Event) :
  run None fetch fuel self w = Finished o w' t →
  ∃ e, o = Raised e.
Proof.
  revert w t. induction fuel as [|fuel IH]; intros w t Hrun; [done|].
  simpl in Hrun.
  destruct (loop_body None fetch self w) as [[[[|]|e] w1] t1] eqn:Hbody.
  - destruct (run None fetch fuel self w1) as [o2 w2 t2|] eqn:Hrest; [|done].
    injection Hrun as <- <- _. by apply (IH w1 t2).
  - destruct (loop_body_cases None fetch self w) as (o1 & _ & Hcases).
    destruct o1 as [due|e]; [|congruence].
    destruct Hcases as (o2 & w2 & t2 & _ & Hrest).
    destruct o2 as [[]|e]; [|congruence].
    destruct Hrest as (b & w3 & Hwait & Heq).
    unfold waitForAbort in Hwait. injection Hwait as <- _.
    congruence.
  - injection Hrun as <- _ _. by exists e.
Qed.

(** An instance: a cache entry that cannot be deleted ends the service at
    the first refresh. *)
Lemma without_abort_only_an_exception_ends_the_loop_witness :
  ∃ e, Raised OSError = Raised (A := unit) e.
Proof.
  apply (without_abort_only_an_exception_ends_the_loop
           (fetch_stub (Returned true)) BackgroundService__init__ 1
           (world_at {[ "metadata_update" := "true" ]}
                     (Some {[ "a.json" := file_at 0 Undeletable ]}) 100000000)
           (world_at {[ "metadata_update" := "true" ]}
                     (Some {[ "a.json" := file_at 0 Undeletable ]}) 100000000)
           (Raised OSError) [EvRefresh (inject_Z 100000000)]).
  vm_compute. reflexivity.
Defined.

(** X15.  The loop has no handler either: when a refresh cycle is due and
    its sweep raises, [run] ends with that exception at this pass, the
    collaborator has not been called and no setting has been written. *)
Theorem failing_sweep_ends_the_loop
    (abort_at : option Q)
    (fetch : (Z → Z → World → bool) → World → Outcome bool * World)
    (self : BackgroundService) (w : World) (T0 : Z) (e : Exn) (fuel : nat) :
  abort_raised abort_at w = false →
  stored "metadata_update" w = "true" →
  stored "metadata_last_updated" w = str T0 →
  (inject_Z (T0 + update_interval self) < clock w)%Q →
  outcome_of (_remove_expired_metadata (Some (30 * 24 * 60 * 60)) w) = Raised e →
  ∃ w', run abort_at fetch (S fuel) self w
        = Finished (Raised e) w' [EvRefresh (clock w)]
      ∧ settings w' = settings w.
Proof.
  intros Hdown Hon Hlast Hlt Hraise.
  pose proof (update_due_value self w T0 Hon Hlast) as Hdue.
  apply Qltb_lt in Hlt. rewrite Hlt in Hdue.
  pose proof (loop_body_due abort_at fetch self w Hdue) as Hbody.
  rewrite update_metadata_run in Hbody.
  destruct (sweep_quiet (Some (30 * 24 * 60 * 60)) w) as (_ & Hs & _).
  destruct (_remove_expired_metadata _ w) as [[[[]|e'] w1] t1];
    unfold outcome_of, world_of in *; cbn [fst snd] in *; [done|].
  injection Hraise as ->. exists w1. simpl. by rewrite Hdown, Hbody.
Qed.

(** An instance: a vanished cache entry at the first refresh. *)
Lemma failing_sweep_ends_the_loop_witness :
  let w := world_at {[ "metadata_update" := "true";
                       "metadata_last_updated" := "1000" ]}
                    (Some {[ "a.json" := file_at 0 Vanished ]}) 100000 in
  ∃ w', run None (fetch_stub (Returned true)) 3 BackgroundService__init__ w
        = Finished (Raised OSError) w' [EvRefresh (clock w)]
      ∧ settings w' = settings w.
Proof.
  intros w.
  apply (failing_sweep_ends_the_loop None (fetch_stub (Returned true))
           BackgroundService__init__ w 1000 OSError 2);
    try reflexivity.
Defined.

(** ** The player callbacks, in any order *)

Lemma deliver_without_stop (http : string → HttpResult) (ev : PlayerEvent)
    (self : KodiPlayer) (w : World) :
  ev ≠ PlayBackStopped →
  ∃ self', deliver http ev self w = (Returned self', w, [])
         ∧ (ev ≠ PlayBackStarted → listen self' = listen self).
Proof.
  intros Hev. destruct ev; try done; simpl;
    unfold onPlayBackStarted, onAVStarted, onAVChange, onPlayBackSeek,
      onPlayBackPaused, onPlayBackResumed, onPlayBackError, onPlayBackEnded,
      log_only, bind, getInfoLabel_FilenameAndPath, getPlayingFile, gets, ret;
    try (destruct (String.prefix _ _)); try (destruct (listen self) eqn:Hl);
    simpl; eexists; (split; [reflexivity|]); done.
Qed.

Lemma stopped_cases (http : string → HttpResult) (self : KodiPlayer) (w : World) :
  onPlayBackStopped http self w = (Returned self, w, [])
  ∨ (listen self = true ∧ av_started self = false
     ∧ ((∃ m, onPlayBackStopped http self w
              = (Returned self, w, [EvHttpGet (stream_path self); EvOkDialog m]))
        ∨ onPlayBackStopped http self w
          = (Raised RequestException, w, [EvHttpGet (stream_path self)]))).
Proof.
  unfold onPlayBackStopped, requests_get, ok_dialog, bind, emit, raise, ret.
  destruct (listen self); [|by left].
  destruct (av_started self); [by left|]. right. simpl.
  split; [done|]. split; [done|].
  destruct (stream_path self) as [u|]; [|by right].
  destruct (http u) as [code|]; [|by right].
  left. by eexists.
Qed.

Lemma stopped_or_not (ev : PlayerEvent) :
  ev = PlayBackStopped ∨ ev ≠ PlayBackStopped.
Proof. destruct ev; (by left) || (by right). Qed.

(** A player that does not listen stays as it is until the next start. *)
Lemma deliver_all_not_listening (http : string → HttpResult)
    (es : list PlayerEvent) (w : World) :
  ∀ self, listen self = false →
    (∀ ev, ev ∈ es → ev ≠ PlayBackStarted) →
    ∃ self', deliver_all http es self w = (Returned self', w, [])
           ∧ listen self' = false.
Proof.
  induction es as [|ev es IH]; intros s0 Hl0 Hes; [by exists s0|].
  assert (Hev : ∃ s1, deliver http ev s0 w = (Returned s1, w, [])
                    ∧ listen s1 = false).
  { destruct (stopped_or_not ev) as [->|Hne].
    - exists s0. simpl. unfold onPlayBackStopped. by rewrite Hl0.
    - destruct (deliver_without_stop http ev s0 w Hne) as (s1 & Hs1 & Hl1).
      exists s1. split; [done|]. rewrite Hl1; [done|]. apply Hes. by left. }
  destruct Hev as (s1 & Hs1 & Hl1).
  destruct (IH s1 Hl1) as (s2 & Hs2 & Hl2); [intros ev' Hin; apply Hes; by right|].
  exists s2. split; [|done]. simpl. unfold bind. by rewrite Hs1, Hs2.
Qed.

(** X16.  Playback that does not come from the add-on is ignored: after a
    start whose path is not under [plugin://plugin.video.viervijfzes/],
    whatever the state before, no callback up to the next start probes,
    shows a dialog or raises, a stop included. *)
Theorem foreign_session_is_ignored
    (http : string → HttpResult) (self : KodiPlayer) (w : World)
    (es : list PlayerEvent) :
  String.prefix "plugin://plugin.video.viervijfzes/" (filename_and_path w) = false →
  (∀ ev, ev ∈ es → ev ≠ PlayBackStarted) →
  ∃ self', deliver_all http (PlayBackStarted :: es) self w = (Returned self', w, [])
         ∧ listen self' = false.
Proof.
  intros Hforeign Hes.
  assert (Hstart : ∃ s0, onPlayBackStarted self w = (Returned s0, w, [])
                       ∧ listen s0 = false).
  { unfold onPlayBackStarted, bind, getInfoLabel_FilenameAndPath, gets, ret.
    rewrite Hforeign. by eexists. }
  destruct Hstart as (s0 & Hs0 & Hl0).
  destruct (deliver_all_not_listening http es w s0 Hl0 Hes) as (s1 & Hs1 & Hl1).
  exists s1. split; [|done]. simpl. unfold bind. by rewrite Hs0, Hs1.
Qed.

(** An instance: a local file is played, paused and stopped. *)
Lemma foreign_session_is_ignored_witness :
  trace_of (deliver_all (http_always ConnectionFailed)
              [PlayBackStarted; PlayBackPaused; PlayBackStopped]
              {| listen := true; path := None; av_started := false;
                 stream_path := Some "https://stream.example/abc.m3u8" |}
              (with_clock 0
                 {| settings := ∅; cache_dir := None; clock := 0;
                    filename_and_path := "/home/user/film.mkv";
                    playing_file := "/home/user/film.mkv" |}))
  = [].
Proof.
  destruct (foreign_session_is_ignored (http_always ConnectionFailed)
              {| listen := true; path := None; av_started := false;
                 stream_path := Some "https://stream.example/abc.m3u8" |}
              (with_clock 0
                 {| settings := ∅; cache_dir := None; clock := 0;
                    filename_and_path := "/home/user/film.mkv";
                    playing_file := "/home/user/film.mkv" |})
              [PlayBackPaused; PlayBackStopped])
    as (s & Hrun & _).
  - reflexivity.
  - intros ev Hev. repeat (apply elem_of_cons in Hev as [->|Hev]); try done.
    by apply elem_of_nil in Hev.
  - by rewrite Hrun.
Defined.

(** X17.  Nothing but a stop callback ever probes the stream, shows a
    dialog or raises: a sequence of callbacks without a stop, from any
    state, returns with an empty trace.  In particular a session that ends
    by itself ([onPlayBackEnded]) or with an error ([onPlayBackError])
    before AV has started is not examined. *)
Theorem only_a_stop_probes
    (http : string → HttpResult) (es : list PlayerEvent)
    (self : KodiPlayer) (w : World) :
  (∀ ev, ev ∈ es → ev ≠ PlayBackStopped) →
  ∃ self', deliver_all http es self w = (Returned self', w, []).
Proof.
  revert self. induction es as [|ev es IH]; intros self Hes; [by exists self|].
  destruct (deliver_without_stop http ev self w) as (s1 & Hs1 & _);
    [apply Hes; by left|].
  destruct (IH s1) as (s2 & Hs2); [intros ev' Hin; apply Hes; by right|].
  exists s2. simpl. unfold bind. by rewrite Hs1, Hs2.
Qed.

(** An instance: a session of the add-on that ends without AV. *)
Lemma only_a_stop_probes_witness :
  trace_of (deliver_all (http_always (Response 403))
              [PlayBackStarted; PlayBackError; PlayBackEnded]
              KodiPlayer__init__ (world_at ∅ None 0)) = [].
Proof.
  destruct (only_a_stop_probes (http_always (Response 403))
              [PlayBackStarted; PlayBackError; PlayBackEnded]
              KodiPlayer__init__ (world_at ∅ None 0)) as (s & Hrun).
  - intros ev Hev. repeat (apply elem_of_cons in Hev as [->|Hev]); try done.
    by apply elem_of_nil in Hev.
  - by rewrite Hrun.
Defined.

(** X18.  In every sequence of callbacks, from every state: the callbacks
    do not change the world; every dialog follows a probe of its own, so
    when the sequence returns there are as many dialogs as probes; and a
    sequence can only be cut short by the exception of a probe, which is
    then the one probe without a dialog.  There are never more probes than
    stop callbacks. *)
Theorem dialogs_follow_probes
    (http : string → HttpResult) (es : list PlayerEvent)
    (self : KodiPlayer) (w : World) :
  let r := deliver_all http es self w in
  world_of r = w
  ∧ (count_events is_probe (trace_of r) <= length (List.filter is_stopped es))%nat
  ∧ match outcome_of r with
    | Returned _ =>
        count_events is_dialog (trace_of r) = count_events is_probe (trace_of r)
    | Raised e =>
        e = RequestException
        ∧ count_events is_probe (trace_of r)
          = S (count_events is_dialog (trace_of r))
    end.
Proof.
  revert self. induction es as [|ev es IH]; intros self; [by simpl|].
  simpl deliver_all. unfold bind.
  assert (Hev : (∃ s1, deliver http ev self w = (Returned s1, w, []))
                ∨ (ev = PlayBackStopped
                   ∧ ((∃ m, deliver http ev self w
                            = (Returned self, w,
                               [EvHttpGet (stream_path self); EvOkDialog m]))
                      ∨ deliver http ev self w
                        = (Raised RequestException, w,
                           [EvHttpGet (stream_path self)])))).
  { destruct (stopped_or_not ev) as [->|Hne].
    - simpl. destruct (stopped_cases http self w) as [Hq|(_ & _ & Hp)];
        [left; by eexists | by right].
    - left. destruct (deliver_without_stop http ev self w Hne) as (s1 & Hs1 & _).
      by exists s1. }
  destruct Hev as [(s1 & ->) | (-> & [(m & ->) | ->])].
  - specialize (IH s1). cbv zeta in IH.
    destruct (deliver_all http es s1 w) as [[o w2] t2].
    unfold world_of, trace_of, outcome_of in *. cbn [fst snd] in *.
    destruct IH as (Hw & Hle & Ho). split; [done|]. split; [|done].
    simpl. destruct (is_stopped ev); simpl; lia.
  - specialize (IH self). cbv zeta in IH.
    destruct (deliver_all http es self w) as [[o w2] t2].
    unfold world_of, trace_of, outcome_of in *. cbn [fst snd] in *.
    destruct IH as (Hw & Hle & Ho). split; [done|].
    change ([EvHttpGet (stream_path self); EvOkDialog m] ++ t2)
      with (EvHttpGet (stream_path self) :: EvOkDialog m :: t2).
    unfold count_events in *. simpl. split; [lia|].
    destruct o as [s2|e]; [lia|]. destruct Ho as [-> Ho]. split; [done|lia].
  - unfold world_of, trace_of, outcome_of. cbn [fst snd].
    split; [done|]. unfold count_events. simpl. split; [lia|done].
Qed.

(** X19.  The probe goes to the file Kodi was playing when the session
    started ([getPlayingFile] at the start callback), also when Kodi plays
    something else by the time of the stop. *)
Theorem probe_goes_to_the_file_of_the_start
    (http : string → HttpResult) (self : KodiPlayer) (w1 : World) :
  String.prefix "plugin://plugin.video.viervijfzes/" (filename_and_path w1) = true →
  ∃ s, outcome_of (onPlayBackStarted self w1) = Returned s
     ∧ ∀ w2, head (trace_of (onPlayBackStopped http s w2))
             = Some (EvHttpGet (Some (playing_file w1))).
Proof.
  intros Hrel. rewrite started_relevant by done. eexists. split; [done|].
  intros w2. rewrite stopped_without_av. by destruct (http (playing_file w1)).
Qed.

(** An instance: between start and stop the player has moved on to another
    file. *)
Lemma probe_goes_to_the_file_of_the_start_witness :
  ∃ s, outcome_of (onPlayBackStarted KodiPlayer__init__ (world_at ∅ None 0))
       = Returned s
     ∧ head (trace_of (onPlayBackStopped (http_always (Response 200)) s
                         {| settings := ∅; cache_dir := None; clock := 9;
                            filename_and_path := "/home/user/film.mkv";
                            playing_file := "/home/user/film.mkv" |}))
       = Some (EvHttpGet (Some "https://stream.example/abc.m3u8")).
Proof.
  destruct (probe_goes_to_the_file_of_the_start (http_always (Response 200))
              KodiPlayer__init__ (world_at ∅ None 0)) as (s & Hs & Hprobe);
    [reflexivity|].
  exists s. split; [done|]. apply Hprobe.
Defined.

(** In a session of the add-on without AV, whose stream answers: every stop
    probes and shows a dialog, and the state stays as it is. *)
Lemma deliver_all_stops_without_av (http : string → HttpResult)
    (es : list PlayerEvent) (w : World) (p : option string) (url : string)
    (code : Z) :
  http url = Response code →
  (∀ ev, ev ∈ es → ev ≠ PlayBackStarted ∧ ev ≠ AVStarted) →
  let s0 := {| listen := true; path := p; av_started := false;
               stream_path := Some url |} in
  ∃ t, deliver_all http es s0 w = (Returned s0, w, t)
     ∧ count_events is_probe t = length (List.filter is_stopped es)
     ∧ count_events is_dialog t = length (List.filter is_stopped es).
Proof.
  intros Hurl Hes s0. induction es as [|ev es IH]; [by exists []|].
  destruct IH as (t & Ht & Hp & Hd); [intros ev' Hin; apply Hes; by right|].
  destruct (Hes ev) as [Hns Hna]; [by left|].
  destruct (stopped_or_not ev) as [->|Hne].
  - eexists. simpl deliver_all. unfold bind. simpl deliver.
    unfold s0 at 1. rewrite stopped_without_av, Hurl. fold s0. rewrite Ht.
    split; [reflexivity|]. unfold count_events in *. simpl. by rewrite Hp, Hd.
  - assert (Hev : deliver http ev s0 w = (Returned s0, w, []))
      by (by destruct ev).
    exists t. simpl deliver_all. unfold bind. rewrite Hev, Ht.
    split; [done|]. by destruct ev.
Qed.

(** X20.  A stop does not close the session: in a session of the add-on in
    which AV never starts and whose stream answers the probe, every stop
    callback up to the next start probes the stream and shows a dialog, so
    there are as many probes and as many dialogs as stops. *)
Theorem every_stop_without_av_probes
    (http : string → HttpResult) (self : KodiPlayer) (w : World)
    (es : list PlayerEvent) (code : Z) :
  String.prefix "plugin://plugin.video.viervijfzes/" (filename_and_path w) = true →
  http (playing_file w) = Response code →
  (∀ ev, ev ∈ es → ev ≠ PlayBackStarted ∧ ev ≠ AVStarted) →
  let t := trace_of (deliver_all http (PlayBackStarted :: es) self w) in
  count_events is_probe t = length (List.filter is_stopped es)
  ∧ count_events is_dialog t = length (List.filter is_stopped es).
Proof.
  intros Hrel Hurl Hes t. subst t.
  simpl deliver_all. unfold bind. simpl deliver. rewrite started_relevant by done.
  destruct (deliver_all_stops_without_av http es w
              (Some (filename_and_path w)) (playing_file w) code Hurl Hes)
    as (t & -> & Hp & Hd).
  done.
Qed.

(** An instance: two stops in a row give two probes and two dialogs. *)
Lemma every_stop_without_av_probes_witness :
  count_events is_dialog
    (trace_of (deliver_all (http_always (Response 500))
                 [PlayBackStarted; PlayBackStopped; PlayBackStopped]
                 KodiPlayer__init__ (world_at ∅ None 0)))
  = 2%nat.
Proof.
  apply (every_stop_without_av_probes (http_always (Response 500))
           KodiPlayer__init__ (world_at ∅ None 0)
           [PlayBackStopped; PlayBackStopped] 500); try reflexivity.
  intros ev Hev. repeat (apply elem_of_cons in Hev as [->|Hev]); try done.
  by apply elem_of_nil in Hev.
Defined.

Lemma deliver_all_world (http : string → HttpResult) (es : list PlayerEvent)
    (self : KodiPlayer) (w : World) :
  world_of (deliver_all http es self w) = w.
Proof.
  revert self. induction es as [|ev es IH]; intros self; [done|].
  simpl. unfold bind.
  assert (Hev : world_of (deliver http ev self w) = w).
  { destruct (stopped_or_not ev) as [->|Hne].
    - simpl. destruct (stopped_cases http self w) as [->|(_ & _ & [[m ->] | ->])];
        done.
    - by destruct (deliver_without_stop http ev self w Hne) as (s1 & -> & _). }
  destruct (deliver http ev self w) as [[[s1|e] w1] t1];
    unfold world_of in Hev; cbn [fst snd] in Hev; subst w1; [|done].
  specialize (IH s1). by destruct (deliver_all http es s1 w) as [[o w2] t2].
Qed.

(** X26.  Every start of the add-on opens a session of its own: whatever
    callbacks came before and whatever state they left (AV started or not,
    listening or not), as long as none of them raised, a start followed at
    once by a stop makes exactly one more probe. *)
Theorem new_start_opens_a_new_session
    (http : string → HttpResult) (es : list PlayerEvent)
    (self s : KodiPlayer) (w : World) :
  String.prefix "plugin://plugin.video.viervijfzes/" (filename_and_path w) = true →
  outcome_of (deliver_all http es self w) = Returned s →
  count_events is_probe
    (trace_of (deliver_all http (es ++ [PlayBackStarted; PlayBackStopped]) self w))
  = S (count_events is_probe (trace_of (deliver_all http es self w))).
Proof.
  intros Hrel Hret. rewrite deliver_all_app. unfold bind.
  pose proof (deliver_all_world http es self w) as Hw.
  destruct (deliver_all http es self w) as [[o w1] t1].
  unfold outcome_of, world_of, trace_of in *. cbn [fst snd] in *. subst o w1.
  rewrite start_stop_run by done.
  destruct (http (playing_file w)); cbn [snd];
    rewrite count_events_app; unfold count_events at 2; simpl; lia.
Qed.

(** An instance: a session with AV, then a session without. *)
Lemma new_start_opens_a_new_session_witness :
  count_events is_probe
    (trace_of (deliver_all (http_always (Response 403))
                 ([PlayBackStarted; AVStarted; PlayBackStopped]
                  ++ [PlayBackStarted; PlayBackStopped])
                 KodiPlayer__init__ (world_at ∅ None 0)))
  = 1%nat.
Proof.
  apply (new_start_opens_a_new_session (http_always (Response 403))
           [PlayBackStarted; AVStarted; PlayBackStopped] KodiPlayer__init__
           {| listen := true;
              path := Some "plugin://plugin.video.viervijfzes/play/catalog/abc";
              av_started := true;
              stream_path := Some "https://stream.example/abc.m3u8" |}
           (world_at ∅ None 0)); reflexivity.
Defined.

(** ** The translation check *)

Lemma append_cons (c : ascii) (a post : string) :
  String c a +:+ post = String c (a +:+ post).
Proof. reflexivity. Qed.

Lemma prefix_iff (a s : string) :
  String.prefix a s = true ↔ ∃ post, s = a +:+ post.
Proof.
  revert s. induction a as [|c a IH]; intros s.
  - split; [|by destruct s]. intros _. by exists s.
  - destruct s as [|c' s]; simpl.
    + split; [done|]. intros [post Hpost]. by rewrite append_cons in Hpost.
    + destruct (Ascii.ascii_dec c c') as [->|Hne].
      * rewrite IH. split; intros [post Hpost]; exists post;
          rewrite append_cons in *; congruence.
      * split; [done|]. intros [post Hpost].
        rewrite append_cons in Hpost. congruence.
Qed.

(** [contains] is Python's [in] on strings. *)
Lemma contains_iff (sub s : string) :
  contains sub s = true ↔ ∃ pre post, s = pre +:+ sub +:+ post.
Proof.
  induction s as [|c s IH].
  - change (contains sub "") with (String.prefix sub "").
    rewrite prefix_iff. split.
    + intros [post Hpost]. by exists "", post.
    + intros (pre & post & Heq). destruct pre; [by exists post|done].
  - change (contains sub (String c s))
      with (String.prefix sub (String c s) || contains sub s).
    rewrite orb_true_iff, prefix_iff, IH. split.
    + intros [[post Hpost] | (pre & post & Heq)].
      * by exists "", post.
      * exists (String c pre), post. rewrite append_cons. by rewrite Heq.
    + intros (pre & post & Heq). destruct pre as [|c' pre].
      * left. by exists post.
      * right. rewrite append_cons in Heq. injection Heq as _ Heq.
        by exists pre, post.
Qed.

Lemma check_entries_cons (code : string) (e : POEntry) (po : list POEntry)
    (error : Z) (ctxt : string) :
  msgctxt e = Some ctxt →
  check_entries code (e :: po) error
  = if is_unused code e
    then ((e :: (check_entries code po 1).1), (check_entries code po 1).2)
    else check_entries code po error.
Proof.
  intros Hc. unfold is_unused. simpl. rewrite Hc.
  destruct (negb (contains (lstrip_hash ctxt) code)); [|done].
  by destruct (check_entries code po 1).
Qed.

Lemma check_entries_run (code : string) (po : list POEntry) (error : Z) :
  (∀ e, e ∈ po → msgctxt e ≠ None) →
  check_entries code po error
  = (List.filter (is_unused code) po,
     Exit (if List.filter (is_unused code) po is [] then error else 1)).
Proof.
  revert error. induction po as [|e po IH]; intros error Hall; [done|].
  assert (Hpo : ∀ e', e' ∈ po → msgctxt e' ≠ None)
    by (intros e' Hin; apply Hall; by right).
  destruct (msgctxt e) as [c|] eqn:Hc; [|by destruct (Hall e); [left|]].
  rewrite (check_entries_cons code e po error c Hc).
  change (List.filter (is_unused code) (e :: po))
    with (if is_unused code e then e :: List.filter (is_unused code) po
          else List.filter (is_unused code) po).
  destruct (is_unused code e).
  - rewrite (IH 1 Hpo). cbn [fst snd].
    by destruct (List.filter (is_unused code) po).
  - by apply IH.
Qed.

(** X21.  When every entry of the [.po] file has a [msgctxt], the script
    exits with status 0 iff for every entry the [msgctxt], its leading [#]
    characters taken off, occurs somewhere in the code; otherwise it exits
    with status 1. *)
Theorem exit_status_tells_whether_all_are_used (code : string) (po : list POEntry) :
  (∀ e, e ∈ po → msgctxt e ≠ None) →
  ((check_for_unused_translations code po).2 = Exit 0
   ∨ (check_for_unused_translations code po).2 = Exit 1)
  ∧ ((check_for_unused_translations code po).2 = Exit 0
     ↔ ∀ e ctxt, e ∈ po → msgctxt e = Some ctxt →
         ∃ pre post, code = pre +:+ lstrip_hash ctxt +:+ post).
Proof.
  intros Hall. unfold check_for_unused_translations.
  rewrite check_entries_run by done. cbn [snd].
  assert (Hnil : List.filter (is_unused code) po = []
                 ↔ ∀ e ctxt, e ∈ po → msgctxt e = Some ctxt →
                     ∃ pre post, code = pre +:+ lstrip_hash ctxt +:+ post).
  { clear Hall. induction po as [|e po IH].
    - split; [|done]. intros _ e ctxt Hin. by apply elem_of_nil in Hin.
    - change (List.filter (is_unused code) (e :: po))
        with (if is_unused code e then e :: List.filter (is_unused code) po
              else List.filter (is_unused code) po).
      destruct (is_unused code e) eqn:Hu.
      + split; [done|]. intros Hpo. exfalso. unfold is_unused in Hu.
        destruct (msgctxt e) as [c|] eqn:Hc; [|done].
        assert (contains (lstrip_hash c) code = true) as Hin.
        { apply contains_iff. apply (Hpo e c); [by left|done]. }
        by rewrite Hin in Hu.
      + rewrite IH. split.
        * intros Hpo e' ctxt [->|Hin']%elem_of_cons Hctxt; [|by eapply Hpo].
          apply contains_iff. unfold is_unused in Hu. rewrite Hctxt in Hu.
          by apply negb_false_iff.
        * intros Hpo e' ctxt Hin'. apply Hpo. by right. }
  rewrite <- Hnil.
  destruct (List.filter (is_unused code) po); split; try (by left); try (by right);
    done.
Qed.

(** An instance: message 30720 is used, message 30721 is not. *)
Lemma exit_status_tells_whether_all_are_used_witness :
  let code := "service.py:169:                message_id = 30720" in
  (check_for_unused_translations code
     [ {| msgctxt := Some "#30720"; msgid := "Forbidden"; msgstr := "" |} ]).2
  = Exit 0
  ∧ (check_for_unused_translations code
     [ {| msgctxt := Some "#30720"; msgid := "Forbidden"; msgstr := "" |};
       {| msgctxt := Some "#30721"; msgid := "Other"; msgstr := "" |} ]).2
    = Exit 1.
Proof.
  intros code. split.
  - apply (exit_status_tells_whether_all_are_used code).
    + intros e Hin. apply list_elem_of_singleton in Hin as ->. done.
    + intros e ctxt Hin Hctxt. apply list_elem_of_singleton in Hin as ->.
      injection Hctxt as <-.
      by exists "service.py:169:                message_id = ", "".
  - destruct (exit_status_tells_whether_all_are_used code
                [ {| msgctxt := Some "#30720"; msgid := "Forbidden"; msgstr := "" |};
                  {| msgctxt := Some "#30721"; msgid := "Other"; msgstr := "" |} ])
      as [[H0|H1] _]; [|vm_compute in H0; discriminate|exact H1].
    intros e Hin. repeat (apply elem_of_cons in Hin as [->|Hin]); try done.
    by apply elem_of_nil in Hin.
Defined.

(** X22.  When every entry has a [msgctxt], the script prints exactly the
    entries whose [msgctxt] (leading [#] off) does not occur in the code,
    each once and in the order of the file, and the exit status is 1 iff it
    has printed one. *)
Theorem report_lists_the_unused_entries (code : string) (po : list POEntry) :
  (∀ e, e ∈ po → msgctxt e ≠ None) →
  let r := check_for_unused_translations code po in
  r.1 = List.filter (is_unused code) po
  ∧ (r.2 = Exit 1 ↔ r.1 ≠ [])
  ∧ (r.2 = Exit 0 ↔ r.1 = []).
Proof.
  intros Hall r. subst r. unfold check_for_unused_translations.
  rewrite check_entries_run by done. cbn [fst snd].
  split; [done|]. by destruct (List.filter (is_unused code) po).
Qed.

(** An instance: of three entries the second is unused. *)
Lemma report_lists_the_unused_entries_witness :
  (check_for_unused_translations "x = 30720; y = 30722"
     [ {| msgctxt := Some "#30720"; msgid := "a"; msgstr := "" |};
       {| msgctxt := Some "#30721"; msgid := "b"; msgstr := "" |};
       {| msgctxt := Some "#30722"; msgid := "c"; msgstr := "" |} ]).1
  = [ {| msgctxt := Some "#30721"; msgid := "b"; msgstr := "" |} ].
Proof.
  destruct (report_lists_the_unused_entries "x = 30720; y = 30722"
     [ {| msgctxt := Some "#30720"; msgid := "a"; msgstr := "" |};
       {| msgctxt := Some "#30721"; msgid := "b"; msgstr := "" |};
       {| msgctxt := Some "#30722"; msgid := "c"; msgstr := "" |} ])
    as (Hreport & _).
  - intros e Hin. repeat (apply elem_of_cons in Hin as [->|Hin]); try done.
    by apply elem_of_nil in Hin.
  - rewrite Hreport. vm_compute. reflexivity.
Defined.

Lemma append_assoc (a b c : string) : (a +:+ b) +:+ c = a +:+ (b +:+ c).
Proof. induction a as [|x a IH]; [done|]. by rewrite !append_cons, IH. Qed.

Lemma contains_empty (s : string) : contains "" s = true.
Proof. apply contains_iff. by exists "", s. Qed.

Lemma contains_in_more_code (sub code pre post : string) :
  contains sub code = true → contains sub (pre +:+ code +:+ post) = true.
Proof.
  rewrite !contains_iff. intros (p & q & ->).
  exists (pre +:+ p), (q +:+ post). by rewrite !append_assoc.
Qed.

(** X23.  The leading [#] of a [msgctxt] never matter, and an entry whose
    [msgctxt] is empty or made of [#] only is never reported, whatever the
    code is: the empty string occurs in every string. *)
Theorem hashes_only_entry_is_never_reported
    (code : string) (po : list POEntry) (e : POEntry) (ctxt : string) :
  (∀ e', e' ∈ po → msgctxt e' ≠ None) →
  msgctxt e = Some ctxt →
  lstrip_hash ctxt = "" →
  lstrip_hash (String "#" ctxt) = lstrip_hash ctxt
  ∧ ¬ In e (check_for_unused_translations code po).1.
Proof.
  intros Hall Hc Hempty. split; [done|].
  unfold check_for_unused_translations. rewrite check_entries_run by done.
  cbn [fst]. rewrite filter_In. intros [_ Hu].
  unfold is_unused in Hu. rewrite Hc, Hempty, contains_empty in Hu. done.
Qed.

(** An instance: a file with a single entry whose context is ["##"], checked
    against no code at all. *)
Lemma hashes_only_entry_is_never_reported_witness :
  ¬ In {| msgctxt := Some "##"; msgid := "a"; msgstr := "" |}
       (check_for_unused_translations ""
          [ {| msgctxt := Some "##"; msgid := "a"; msgstr := "" |} ]).1.
Proof.
  apply (hashes_only_entry_is_never_reported ""
           [ {| msgctxt := Some "##"; msgid := "a"; msgstr := "" |} ]
           {| msgctxt := Some "##"; msgid := "a"; msgstr := "" |} "##").
  - intros e Hin. apply list_elem_of_singleton in Hin as ->. done.
  - reflexivity.
  - reflexivity.
Defined.

(** X24.  An entry without a [msgctxt] stops the script with an
    [AttributeError]: the entries before it have been checked and reported
    as usual, the entries after it are not looked at, and [exit] is not
    reached. *)
Theorem entry_without_msgctxt_stops_the_script
    (code : string) (before after : list POEntry) (e : POEntry) :
  (∀ e', e' ∈ before → msgctxt e' ≠ None) →
  msgctxt e = None →
  check_for_unused_translations code (before ++ e :: after)
  = (List.filter (is_unused code) before, AttributeError).
Proof.
  intros Hall He. unfold check_for_unused_translations. generalize 0 as error.
  induction before as [|b before IH]; intros error.
  - simpl. by rewrite He.
  - destruct (msgctxt b) as [c|] eqn:Hc; [|by destruct (Hall b); [left|]].
    change ((b :: before) ++ e :: after) with (b :: (before ++ e :: after)).
    rewrite (check_entries_cons code b _ error c Hc).
    change (List.filter (is_unused code) (b :: before))
      with (if is_unused code b then b :: List.filter (is_unused code) before
            else List.filter (is_unused code) before).
    assert (Hrest : ∀ e', e' ∈ before → msgctxt e' ≠ None)
      by (intros e' Hin; apply Hall; by right).
    destruct (is_unused code b); by rewrite (IH Hrest).
Qed.

(** An instance: the second of three entries has no context. *)
Lemma entry_without_msgctxt_stops_the_script_witness :
  check_for_unused_translations "x = 30720"
    [ {| msgctxt := Some "#30721"; msgid := "a"; msgstr := "" |};
      {| msgctxt := None; msgid := "b"; msgstr := "" |};
      {| msgctxt := Some "#30722"; msgid := "c"; msgstr := "" |} ]
  = ([ {| msgctxt := Some "#30721"; msgid := "a"; msgstr := "" |} ],
     AttributeError).
Proof.
  apply (entry_without_msgctxt_stops_the_script "x = 30720"
           [ {| msgctxt := Some "#30721"; msgid := "a"; msgstr := "" |} ]
           [ {| msgctxt := Some "#30722"; msgid := "c"; msgstr := "" |} ]
           {| msgctxt := None; msgid := "b"; msgstr := "" |}).
  - intros e Hin. apply list_elem_of_singleton in Hin as ->. done.
  - reflexivity.
Defined.

(** X25.  More code never gives more complaints: when the code is extended
    at either end, every entry reported for the longer code was reported
    for the shorter one, and a check that passed still passes. *)
Theorem more_code_reports_no_more
    (code pre post : string) (po : list POEntry) :
  (∀ e, e ∈ po → msgctxt e ≠ None) →
  let r := check_for_unused_translations code po in
  let r' := check_for_unused_translations (pre +:+ code +:+ post) po in
  (∀ e, In e r'.1 → In e r.1)
  ∧ (r.2 = Exit 0 → r'.2 = Exit 0).
Proof.
  intros Hall r r'. subst r r'. unfold check_for_unused_translations.
  rewrite !check_entries_run by done. cbn [fst snd].
  assert (Hsub : ∀ e, In e (List.filter (is_unused (pre +:+ code +:+ post)) po)
                      → In e (List.filter (is_unused code) po)).
  { intros e. rewrite !filter_In. intros [Hin Hu]. split; [done|].
    unfold is_unused in *. destruct (msgctxt e) as [c|]; [|done].
    destruct (contains (lstrip_hash c) code) eqn:Hc; [|done].
    by rewrite (contains_in_more_code _ _ pre post Hc) in Hu. }
  split; [done|].
  destruct (List.filter (is_unused code) po) eqn:Hshort; [|done].
  destruct (List.filter (is_unused (pre +:+ code +:+ post)) po) as [|e l];
    [done|].
  destruct (Hsub e). by left.
Qed.

(** An instance: a passing check still passes with a file added. *)
Lemma more_code_reports_no_more_witness :
  (check_for_unused_translations ("a.py:1:x" +:+ "b.py:7:localize(30720)" +:+ "")
     [ {| msgctxt := Some "#30720"; msgid := "a"; msgstr := "" |} ]).2
  = Exit 0.
Proof.
  apply (more_code_reports_no_more "b.py:7:localize(30720)" "a.py:1:x" ""
           [ {| msgctxt := Some "#30720"; msgid := "a"; msgstr := "" |} ]).
  - intros e Hin. apply list_elem_of_singleton in Hin as ->. done.
  - vm_compute. reflexivity.
Defined.
